(** * mediafiler: sorting media files into year-month folders

    A shallow embedding of [mediafiler.py].  Python [str] values are
    [string]s, the fields of a date are [Z], the two counters of [main]
    are [nat], dictionaries are [gmap]s.  The file systems, the EXIF
    reader, the MD5 digest, the clock conversion and the random
    generator are the collaborators of the script: the source tree and
    the destination are explicit values, the digest and the clock
    conversion are section variables, and the state of the [random]
    module is a field of the run state.

    The source tree is not below the destination and no other process
    writes to either during a run; the creation of directories returns.
    A statement that raises is one of: the EXIF reader, the unpacking of
    a timestamp, [os.stat], [date.fromtimestamp], the opening of a file
    that cannot be read, and a copy the destination does not carry
    through. *)

From Stdlib Require Import ZArith Ascii DecimalString.
From stdpp Require Import gmap strings list fin_maps.

Local Open Scope Z_scope.

(** ** Python strings *)

Module Str.

Definition is_upper (c : ascii) : bool :=
  let n := nat_of_ascii c in (65 <=? n)%nat && (n <=? 90)%nat.

Definition lower_char (c : ascii) : ascii :=
  if is_upper c then ascii_of_nat (nat_of_ascii c + 32) else c.

(** [s.lower()], on the ASCII letters. *)
Fixpoint lower (s : string) : string :=
  match s with
  | EmptyString => EmptyString
  | String c s' => String (lower_char c) (lower s')
  end.

(** [s[n:]] *)
Fixpoint drop (n : nat) (s : string) : string :=
  match n, s with
  | O, _ => s
  | S n', EmptyString => EmptyString
  | S n', String _ s' => drop n' s'
  end.

(** [s[:n]] *)
Fixpoint take (n : nat) (s : string) : string :=
  match n, s with
  | O, _ => EmptyString
  | S n', EmptyString => EmptyString
  | S n', String c s' => String c (take n' s')
  end.

(** [s.endswith(suffix)] *)
Definition endswith (s suffix : string) : bool :=
  (String.length suffix <=? String.length s)%nat
  && String.eqb (drop (String.length s - String.length suffix) s) suffix.

(** [s.endswith(tuple)]: some member of the tuple is a suffix. *)
Definition endswith_any (s : string) (suffixes : list string) : bool :=
  existsb (endswith s) suffixes.

(** The text before the first [sep] and the text after it, when [sep]
    occurs. *)
Fixpoint partition (sep : ascii) (s : string) : option (string * string) :=
  match s with
  | EmptyString => None
  | String c s' =>
      if Ascii.eqb c sep then Some (EmptyString, s')
      else match partition sep s' with
           | Some (a, b) => Some (String c a, b)
           | None => None
           end
  end.

(** [s.split(sep, maxsplit)] for a one-character separator. *)
Fixpoint split (sep : ascii) (maxsplit : nat) (s : string) : list string :=
  match maxsplit with
  | O => [s]
  | S k =>
      match partition sep s with
      | Some (a, b) => a :: split sep k b
      | None => [s]
      end
  end.

(** The regular-expression class [[0-9]]. *)
Definition is_digit (c : ascii) : bool :=
  let n := nat_of_ascii c in (48 <=? n)%nat && (n <=? 57)%nat.

Fixpoint all_digits (s : string) : bool :=
  match s with
  | EmptyString => true
  | String c s' => is_digit c && all_digits s'
  end.

(** [[0-9]{n}] at the head of [s]: the digits and the remaining text. *)
Fixpoint digits_here (n : nat) (s : string) : option (string * string) :=
  match n with
  | O => Some (EmptyString, s)
  | S n' =>
      match s with
      | String c s' =>
          if is_digit c then
            match digits_here n' s' with
            | Some (d, r) => Some (String c d, r)
            | None => None
            end
          else None
      | EmptyString => None
      end
  end.

(** One literal character at the head of [s]. *)
Definition char_here (c : ascii) (s : string) : option string :=
  match s with
  | String c' s' => if Ascii.eqb c' c then Some s' else None
  | EmptyString => None
  end.

(** [int(s)] for a string of decimal digits. *)
Definition digit_value (c : ascii) : Z := Z.of_nat (nat_of_ascii c) - 48.

Fixpoint int_acc (acc : Z) (s : string) : Z :=
  match s with
  | EmptyString => acc
  | String c s' => int_acc (10 * acc + digit_value c) s'
  end.

Definition int (s : string) : Z := int_acc 0 s.

(** [str(n)] for an integer. *)
Definition str (n : Z) : string := NilEmpty.string_of_int (Z.to_int n).

Fixpoint zeros (n : nat) : string :=
  match n with
  | O => EmptyString
  | S n' => String "0" (zeros n')
  end.

(** ["{:0wd}".format(n)]: the sign first, then zeros up to width [w]. *)
Definition format_0d (w : nat) (n : Z) : string :=
  let body := str (Z.abs n) in
  if n <? 0
  then String "-" (zeros (w - 1 - String.length body) +:+ body)
  else zeros (w - String.length body) +:+ body.

End Str.

(** ** Exceptions *)

Inductive exception := RuntimeError | ValueError | OSError | IndexError.

Inductive result (A : Type) :=
| Ok (a : A)
| Raise (e : exception).
Arguments Ok {A} a.
Arguments Raise {A} e.

Global Instance exception_eq_dec : EqDecision exception.
Proof. solve_decision. Defined.

(** ** Dates *)

(** A [datetime.date]; the script reads [year] and [month]. *)
Record date := { year : Z; month : Z; day : Z }.


Module Clock.

(** The civil date of a day count since 1970-01-01 (proleptic
    Gregorian calendar, years counted from March inside). *)
Definition civil_from_days (days : Z) : date :=
  let z := days + 719468 in
  let era := z / 146097 in
  let doe := z - era * 146097 in
  let yoe := (doe - doe / 1460 + doe / 36524 - doe / 146096) / 365 in
  let doy := doe - (365 * yoe + yoe / 4 - yoe / 100) in
  let mp := (5 * doy + 2) / 153 in
  let d := doy - (153 * mp + 2) / 5 + 1 in
  let m := if mp <? 10 then mp + 3 else mp - 9 in
  let y := yoe + era * 400 + (if m <=? 2 then 1 else 0) in
  {| year := y; month := m; day := d |}.

(** [datetime.date.fromtimestamp] on a machine whose local time is
    [offset] seconds east of UTC: a year outside 1..9999 is ["year is
    out of range"]. *)
Definition fromtimestamp_at (offset : Z) (t : Z) : result date :=
  let d := civil_from_days ((t + offset) / 86400) in
  if (1 <=? year d) && (year d <=? 9999) then Ok d else Raise ValueError.

End Clock.

(** ** Files *)

(** What the script can observe of a file on disk: its bytes, its
    modification time ([st_mtime], in seconds) and whether it can be
    opened for reading. *)
Record file := {
  data : string;
  st_mtime : Z;
  readable : bool
}.

(** A file of the source tree: its name, the file on disk, what
    [pyexiv2.Image(path).read_exif()] gives for it, a dictionary or an
    exception, and what [os.stat(path).st_mtime] gives for it, the
    modification time or the exception of [os.stat] (the name is a
    link to nothing). *)
Record media := {
  name : string;
  on_disk : file;
  read_exif : result (gmap string string);
  os_stat : result Z
}.

(** The source tree as [os.walk] lists it: the directories in traversal
    order, each with its files. *)
Definition tree : Type := list (string * list media).

(** A path below the destination root: [pathlib.Path(dst, dstpart, file)]. *)
Definition dstpath : Type := string * string.

(** How the destination answers one [shutil.copy2] whose source
    opens: the copy is made; or it raises before the target is touched
    (the bucket refuses the write); or it raises after the target was
    created or truncated, and leaves [residue] there (the disk is full, or
    the metadata cannot be set). *)
Inductive copy_outcome :=
| CopyDone
| CopyRefused (e : exception)
| CopyBroken (residue : file) (e : exception).

(** The destination: its files, the sub-directories that exist, and
    its answers to the copies to come, in order; when the answers run
    out every copy is made. *)
Record dest := {
  files : gmap (string * string) file;
  dirs : gset string;
  copy_outcomes : list copy_outcome
}.

Definition IMAGE_EXT : list string := [".jpg"; ".jpeg"; ".png"; ".gif"].
Definition VIDEO_EXT : list string := [".mts"; ".mp4"; ".avi"].

(** ** The date pattern of file names *)

(** [([0-9]{8})_[0-9]{6}\.] at the head of [s]: group 1 when it matches. *)
Definition datere_here (s : string) : option string :=
  match Str.digits_here 8 s with
  | Some (g, r1) =>
      match Str.char_here "_" r1 with
      | Some r2 =>
          match Str.digits_here 6 r2 with
          | Some (_, r3) =>
              match Str.char_here "." r3 with
              | Some _ => Some g
              | None => None
              end
          | None => None
          end
      | None => None
      end
  | None => None
  end.

(** [re.search(datere, s)]: group 1 of the leftmost match. *)
Fixpoint datere_search (s : string) : option string :=
  match datere_here s with
  | Some g => Some g
  | None =>
      match s with
      | EmptyString => None
      | String _ s' => datere_search s'
      end
  end.

(** ["{}-{}".format(dt[:4], dt[4:6])] *)
Definition dt_folder (dt : string) : string :=
  Str.take 4 dt +:+ "-" +:+ Str.take 2 (Str.drop 4 dt).

(** ** Date inference *)

(** The truth value of a dictionary: false when empty. *)
Definition truthy (d : gmap string string) : bool :=
  negb (bool_decide (d = ∅)).

(** [key in d] *)
Definition contains (d : gmap string string) (key : string) : bool :=
  bool_decide (is_Some (d !! key)).

(** [y, m, _ = value.split(':', 2)] then ["{}-{}".format(y, m)]: the
    unpacking raises [ValueError] unless the split has three parts. *)
Definition exif_folder (value : string) : result string :=
  match Str.split ":" 2 value with
  | [y; m; _] => Ok (y +:+ "-" +:+ m)
  | _ => Raise ValueError
  end.

Definition infer_image_dest_folder (f : media) : result string :=
  match read_exif f with
  | Raise e => Raise e
  | Ok exif_data =>
      if truthy exif_data && contains exif_data "Exif.Image.DateTime" then
        exif_folder (default "" (exif_data !! "Exif.Image.DateTime"))
      else if truthy exif_data && contains exif_data "Exif.Photo.DateTimeOriginal" then
        exif_folder (default "" (exif_data !! "Exif.Photo.DateTimeOriginal"))
      else
        match datere_search (name f) with
        | Some dt => Ok (dt_folder dt)
        | None => Ok "unknown"
        end
  end.

Section Inference.

(** [datetime.date.fromtimestamp] of the machine the script runs on:
    a date, or the exception for a time it cannot convert. *)
Variable fromtimestamp : Z -> result date.

(** ["{:04d}-{:02d}".format(dt.year, dt.month)] *)
Definition mtime_folder (dt : date) : string :=
  Str.format_0d 4 (year dt) +:+ "-" +:+ Str.format_0d 2 (month dt).

Definition infer_video_dest_folder (f : media) : result string :=
  match datere_search (name f) with
  | Some dt => Ok (dt_folder dt)
  | None =>
      match os_stat f with
      | Raise e => Raise e
      | Ok mtime =>
          match fromtimestamp mtime with
          | Raise e => Raise e
          | Ok dt => Ok (mtime_folder dt)
          end
      end
  end.

(** ** The walk *)

(** What one file of the walk comes to: the triple handed to the
    caller, or the error record of a file whose inference raised. *)
Inductive walk_event :=
| Yield (root : string) (f : media) (dstdir : string)
| CannotProcess (root : string) (f : media) (e : exception).

Definition ext_list (file_type : string) : list string :=
  if String.eqb file_type "image" then IMAGE_EXT else VIDEO_EXT.

Definition infer_dest_folder (file_type : string) (f : media) : result string :=
  if String.eqb file_type "image"
  then infer_image_dest_folder f
  else infer_video_dest_folder f.

(** The test of the inner loop: [file.lower().endswith(ext_list)]. *)
Definition candidate (file_type : string) (f : media) : bool :=
  Str.endswith_any (Str.lower (name f)) (ext_list file_type).

Definition walk_file (file_type root : string) (f : media) : list walk_event :=
  if candidate file_type f then
    match infer_dest_folder file_type f with
    | Ok dstdir => [Yield root f dstdir]
    | Raise e => [CannotProcess root f e]
    end
  else [].

Definition walk_dir (file_type : string) (d : string * list media) : list walk_event :=
  flat_map (walk_file file_type (fst d)) (snd d).

Definition walk_src_dir (directory : tree) (file_type : string) : list walk_event :=
  flat_map (walk_dir file_type) directory.

End Inference.

(** ** The run *)

(** How one iteration of the loop of [main] ends.  The script keeps no
    such value; the loop below records one per iteration it starts, so
    that the branch taken can be stated. *)
Inductive CopyDecision :=
| Copied (path : dstpath)
| CopiedWithSuffix (path : dstpath) (suffix : string)
| SkippedIdentical
| Failed (reason : exception).

(** The records sent to the logger at the levels [error] and [info]
    (the [debug] records are left out). *)
Inductive log_record :=
| CannotProcessImage (root file : string) (e : exception)
| FailedRun (e : exception)
| FilesFound (n : nat)
| FilesCopied (n : nat).

(** Everything the loop reads and writes: the destination, the locals
    of [main], the state of the [random] module and the logger's
    output. *)
Record state := {
  dst : dest;
  createdSubdirs : gmap string bool;
  nfiles : nat;
  cfiles : nat;
  random_state : list nat;
  log : list log_record;
  decisions : list (string * media * CopyDecision)
}.

Definition set_dst (d : dest) (st : state) : state :=
  {| dst := d; createdSubdirs := createdSubdirs st; nfiles := nfiles st;
     cfiles := cfiles st; random_state := random_state st; log := log st;
     decisions := decisions st |}.

Definition set_createdSubdirs (c : gmap string bool) (st : state) : state :=
  {| dst := dst st; createdSubdirs := c; nfiles := nfiles st;
     cfiles := cfiles st; random_state := random_state st; log := log st;
     decisions := decisions st |}.

Definition set_nfiles (n : nat) (st : state) : state :=
  {| dst := dst st; createdSubdirs := createdSubdirs st; nfiles := n;
     cfiles := cfiles st; random_state := random_state st; log := log st;
     decisions := decisions st |}.

Definition set_cfiles (n : nat) (st : state) : state :=
  {| dst := dst st; createdSubdirs := createdSubdirs st; nfiles := nfiles st;
     cfiles := n; random_state := random_state st; log := log st;
     decisions := decisions st |}.

Definition set_random_state (r : list nat) (st : state) : state :=
  {| dst := dst st; createdSubdirs := createdSubdirs st; nfiles := nfiles st;
     cfiles := cfiles st; random_state := r; log := log st;
     decisions := decisions st |}.

Definition add_log (r : log_record) (st : state) : state :=
  {| dst := dst st; createdSubdirs := createdSubdirs st; nfiles := nfiles st;
     cfiles := cfiles st; random_state := random_state st; log := log st ++ [r];
     decisions := decisions st |}.

Definition add_decision (root : string) (f : media) (d : CopyDecision)
    (st : state) : state :=
  {| dst := dst st; createdSubdirs := createdSubdirs st; nfiles := nfiles st;
     cfiles := cfiles st; random_state := random_state st; log := log st;
     decisions := decisions st ++ [(root, f, d)] |}.

(** Statements that change the state and may raise. *)
Definition M (A : Type) : Type := state -> state * result A.

Global Instance M_ret : MRet M := fun A a st => (st, Ok a).

Global Instance M_bind : MBind M := fun A B k m st =>
  match m st with
  | (st', Ok a) => k a st'
  | (st', Raise e) => (st', Raise e)
  end.

Definition raise {A : Type} (e : exception) : M A := fun st => (st, Raise e).
Definition gets {A : Type} (f : state -> A) : M A := fun st => (st, Ok (f st)).
Definition modify (f : state -> state) : M unit := fun st => (f st, Ok tt).

(** *** [rand_str] *)

(** [string.ascii_lowercase + string.digits] *)
Definition letters : string := "abcdefghijklmnopqrstuvwxyz0123456789".

(** [random.choice(seq)]: the next number of the generator picks the
    index; an empty sequence raises. *)
Definition random_choice (seq : string) : M ascii := fun st =>
  let r := hd 0%nat (random_state st) in
  match String.get (r mod String.length seq) seq with
  | Some c => (set_random_state (tl (random_state st)) st, Ok c)
  | None => (st, Raise IndexError)
  end.

Fixpoint rand_str (length : nat) : M string :=
  match length with
  | O => mret EmptyString
  | S n => c ← random_choice letters; s ← rand_str n; mret (String c s)
  end.

Section Run.

(** [hashlib.md5(bytes).hexdigest()] *)
Variable md5 : string -> string.

Variable fromtimestamp : Z -> result date.

(** *** [get_md5sum], [compare_md5sums], [shutil.copy2], [mkdir] *)

Definition get_md5sum (f : file) : M string :=
  if readable f then mret (md5 (data f)) else raise OSError.

Definition compare_md5sums (fnamea fnameb : file) : M bool :=
  md5sum1 ← get_md5sum fnamea;
  md5sum2 ← get_md5sum fnameb;
  mret (String.eqb md5sum1 md5sum2).

(** [shutil.copy2(src, to)].  A source that cannot be opened raises
    before anything else happens.  Otherwise the destination gives its
    next answer: the bytes, the modification time and the permissions of
    [src] are under the name [to], replacing what was there; or the
    copy raises with the target untouched; or it raises with [residue] at
    the target. *)
Definition copy2 (src : file) (to : dstpath) : M unit := fun st =>
  if readable src then
    let d := dst st in
    let later := tl (copy_outcomes d) in
    match hd CopyDone (copy_outcomes d) with
    | CopyDone =>
        (set_dst {| files := <[to := src]> (files d); dirs := dirs d;
                    copy_outcomes := later |} st, Ok tt)
    | CopyRefused e =>
        (set_dst {| files := files d; dirs := dirs d;
                    copy_outcomes := later |} st, Raise e)
    | CopyBroken residue e =>
        (set_dst {| files := <[to := residue]> (files d); dirs := dirs d;
                    copy_outcomes := later |} st, Raise e)
    end
  else (st, Raise OSError).

(** [pathlib.Path(args.dst, dstpart).mkdir(parents=True, exist_ok=True)] *)
Definition mkdir (dstpart : string) : M unit :=
  modify (fun st =>
    set_dst {| files := files (dst st); dirs := {[dstpart]} ∪ dirs (dst st);
               copy_outcomes := copy_outcomes (dst st) |} st).

(** *** [main] *)

(** The body of the [for] loop of [main]. *)
Definition main_body (srcdir : string) (f : media) (dstpart : string)
    : M CopyDecision :=
  _ ← modify (fun st => set_nfiles (nfiles st + 1) st);
  created ← gets createdSubdirs;
  _ ← (if bool_decide (is_Some (created !! dstpart)) then mret tt
       else _ ← mkdir dstpart;
            modify (fun st =>
              set_createdSubdirs (<[dstpart := true]> (createdSubdirs st)) st));
  let srcpath := on_disk f in
  let dstpath := (dstpart, name f) in
  existing ← gets (fun st => files (dst st) !! dstpath);
  match existing with
  | Some present =>
      same ← compare_md5sums srcpath present;
      if negb same then
        prefix ← rand_str 5;
        let newdstpath := (dstpart, prefix +:+ "-" +:+ name f) in
        _ ← copy2 srcpath newdstpath;
        mret (CopiedWithSuffix newdstpath prefix)
      else mret SkippedIdentical
  | None =>
      _ ← copy2 srcpath dstpath;
      _ ← modify (fun st => set_cfiles (cfiles st + 1) st);
      mret (Copied dstpath)
  end.

(** The [for] loop over the generator.  The generator runs between the
    iterations: a file it cannot process is logged when the loop asks
    for the next triple.  An exception of the body leaves the loop, and
    the generator is not resumed. *)
Fixpoint main_loop (events : list walk_event) : M unit :=
  match events with
  | [] => mret tt
  | CannotProcess root f e :: rest =>
      _ ← modify (add_log (CannotProcessImage root (name f) e));
      main_loop rest
  | Yield root f dstpart :: rest =>
      fun st =>
        match main_body root f dstpart st with
        | (st', Ok d) => main_loop rest (add_decision root f d st')
        | (st', Raise e) => (add_decision root f (Failed e) st', Raise e)
        end
  end.

(** The state [main] starts from: the destination as found, with its
    root made sure of, and the generator state [seed]. *)
Definition initial (dst0 : dest) (seed : list nat) : state :=
  {| dst := dst0; createdSubdirs := ∅; nfiles := 0; cfiles := 0;
     random_state := seed; log := []; decisions := [] |}.

(** The [try] of [main] and the two summary records after it. *)
Definition main_from (src : tree) (file_type : string) (st0 : state) : state :=
  let '(st, r) := main_loop (walk_src_dir fromtimestamp src file_type) st0 in
  let st1 := match r with
             | Ok _ => st
             | Raise e => add_log (FailedRun e) st
             end in
  add_log (FilesCopied (cfiles st1)) (add_log (FilesFound (nfiles st1)) st1).

(** [main] with the arguments [src], [dst] and [--type] ([None] when the
    flag is not given). *)
Definition main (src : tree) (dst0 : dest) (type : option string)
    (seed : list nat) : state :=
  main_from src (default "image" type) (initial dst0 seed).

End Run.

(** * Auxiliary definitions *)

(** ** Digits *)

(** [n] characters, all of them decimal digits. *)
Definition digits_n (n : nat) (s : string) : bool :=
  (String.length s =? n)%nat && Str.all_digits s.

(** The shape [YYYY-MM] of a bucket name: four digits, a dash, two
    digits. *)
Definition year_month (s : string) : bool :=
  digits_n 4 (Str.take 4 s)
  && String.eqb (Str.take 1 (Str.drop 4 s)) "-"
  && digits_n 2 (Str.drop 5 s).

Definition digit_char (d : nat) : ascii := ascii_of_nat (48 + d).


(** ** The specification's vocabulary *)

(** BucketResolver, in the words of the specification: a resolved
    (year, month) gives ["{year:04d}-{month:02d}"], no date gives
    ["unknown"]. *)
Definition bucketFor (resolved : option (Z * Z)) : string :=
  match resolved with
  | Some (y, m) => Str.format_0d 4 y +:+ "-" +:+ Str.format_0d 2 m
  | None => "unknown"
  end.

(** The year and month a date token spells. *)
Definition token_date (dt : string) : Z * Z :=
  (Str.int (Str.take 4 dt), Str.int (Str.take 2 (Str.drop 4 dt))).

(** A text that starts with the date pattern: eight digits, an
    underscore, six digits and a dot. *)
Definition starts_with_date (s : string) : Prop :=
  exists dt time after,
    s = dt +:+ "_" +:+ time +:+ "." +:+ after /\
    digits_n 8 dt = true /\ digits_n 6 time = true.

(** [dt] is the date token of the first place of the name where the
    date pattern starts. *)
Definition first_date_token (file dt : string) : Prop :=
  exists before time after,
    file = before +:+ dt +:+ "_" +:+ time +:+ "." +:+ after /\
    digits_n 8 dt = true /\ digits_n 6 time = true /\
    forall skipped later,
      before = skipped +:+ later -> later <> "" ->
      ~ starts_with_date (later +:+ dt +:+ "_" +:+ time +:+ "." +:+ after).

(** The timestamp the image inference reads: the primary field when
    the dictionary has it, else the original one. *)
Definition selected_timestamp (d : gmap string string) : option string :=
  match d !! "Exif.Image.DateTime" with
  | Some primary => Some primary
  | None => d !! "Exif.Photo.DateTimeOriginal"
  end.

(** The timestamp the image inference takes from a dictionary. *)
Definition exif_timestamp (d : gmap string string) : option string :=
  if truthy d && contains d "Exif.Image.DateTime" then d !! "Exif.Image.DateTime"
  else if truthy d && contains d "Exif.Photo.DateTimeOriginal"
       then d !! "Exif.Photo.DateTimeOriginal"
       else None.

(** The exception the EXIF tier of the image inference ends with, if
    any: the one of the reader, or [ValueError] for a timestamp that
    does not split into three parts. *)
Definition exif_failure (f : media) : option exception :=
  match read_exif f with
  | Raise e => Some e
  | Ok d =>
      match exif_timestamp d with
      | Some v => if (length (Str.split ":" 2 v) =? 3)%nat then None else Some ValueError
      | None => None
      end
  end.

(** The files of the tree whose extension is one of the selected kind,
    in the order of the walk. *)
Definition candidates (directory : tree) (file_type : string)
    : list (string * media) :=
  flat_map (fun d => map (pair (fst d)) (List.filter (candidate file_type) (snd d)))
           directory.

(** The candidates whose date inference returns. *)
Definition inferred (fromtimestamp : Z -> result date) (file_type : string)
    (c : string * media) : bool :=
  match infer_dest_folder fromtimestamp file_type (snd c) with
  | Ok _ => true
  | Raise _ => false
  end.

(** The walk of a video run, in the words of the specification: of
    each directory in order, the files whose lower-case name ends in
    one of the video extensions, each with the folder of the video
    inference or with its exception. *)
Definition video_events (fromtimestamp : Z -> result date) (directory : tree)
    : list walk_event :=
  flat_map (fun d =>
    flat_map (fun f =>
      if Str.endswith_any (Str.lower (name f)) [".mts"; ".mp4"; ".avi"] then
        match infer_video_dest_folder fromtimestamp f with
        | Ok folder => [Yield (fst d) f folder]
        | Raise e => [CannotProcess (fst d) f e]
        end
      else []) (snd d)) directory.

(** The files the walk hands to the loop. *)
Definition yielded (events : list walk_event) : list (string * media) :=
  flat_map (fun ev => match ev with
                      | Yield root f _ => [(root, f)]
                      | CannotProcess _ _ _ => []
                      end) events.

Definition is_Failed (d : CopyDecision) : bool :=
  match d with Failed _ => true | _ => false end.

Definition is_Copied (d : CopyDecision) : bool :=
  match d with Copied _ => true | _ => false end.

Definition is_SkippedIdentical (d : CopyDecision) : bool :=
  match d with SkippedIdentical => true | _ => false end.

(** A decision of the two plain kinds: copied under its own name, or
    found identical. *)
Definition is_plain (d : CopyDecision) : bool :=
  match d with Copied _ | SkippedIdentical => true | _ => false end.

(** A lowercase letter or a digit. *)
Definition lower_alnum (c : ascii) : bool :=
  let n := nat_of_ascii c in
  ((97 <=? n)%nat && (n <=? 122)%nat) || Str.is_digit c.

Fixpoint all_lower_alnum (s : string) : bool :=
  match s with
  | EmptyString => true
  | String c s' => lower_alnum c && all_lower_alnum s'
  end.

(** The characters [rand_str] draws from the generator state [l]. *)
Fixpoint rand_prefix (length : nat) (l : list nat) : string :=
  match length with
  | O => EmptyString
  | S n =>
      match String.get (hd 0%nat l mod 36) letters with
      | Some c => String c (rand_prefix n (tl l))
      | None => EmptyString
      end
  end.

(** The state after the first statements of the loop body: the file is
    counted and the bucket made sure of. *)
Definition entered (dstpart : string) (st : state) : state :=
  let st1 := set_nfiles (nfiles st + 1) st in
  if bool_decide (is_Some (createdSubdirs st !! dstpart)) then st1
  else set_createdSubdirs (<[dstpart := true]> (createdSubdirs st))
         (set_dst {| files := files (dst st); dirs := {[dstpart]} ∪ dirs (dst st);
                     copy_outcomes := copy_outcomes (dst st) |} st1).

(** The state with [f] written at [p]. *)
Definition written (p : dstpath) (f : file) (st : state) : state :=
  set_dst {| files := <[p := f]> (files (dst st)); dirs := dirs (dst st);
             copy_outcomes := copy_outcomes (dst st) |} st.

(** The state with the next answer of the destination used up. *)
Definition answered (st : state) : state :=
  set_dst {| files := files (dst st); dirs := dirs (dst st);
             copy_outcomes := tl (copy_outcomes (dst st)) |} st.

(** The next answer of the destination. *)
Definition next_outcome (st : state) : copy_outcome :=
  hd CopyDone (copy_outcomes (dst st)).

(** How [shutil.copy2] of [src] to [to] raises from the state [st]: the
    state it leaves and its exception. *)
Inductive copy_fails (src : file) (to : dstpath) (st : state)
    : state -> exception -> Prop :=
| fails_unreadable :
    readable src = false ->
    copy_fails src to st st OSError
| fails_refused e :
    readable src = true -> next_outcome st = CopyRefused e ->
    copy_fails src to st (answered st) e
| fails_broken residue e :
    readable src = true -> next_outcome st = CopyBroken residue e ->
    copy_fails src to st (written to residue (answered st)) e.

(** The ways through the body of the loop of [main] for the file [f]
    and the bucket [dstpart] from the state [st]: the state and the
    result of each. *)
Inductive body_outcome (md5 : string -> string) (f : media) (dstpart : string)
    (st : state) : state -> result CopyDecision -> Prop :=
| body_copied :
    files (dst st) !! (dstpart, name f) = None ->
    readable (on_disk f) = true ->
    next_outcome st = CopyDone ->
    body_outcome md5 f dstpart st
      (set_cfiles (cfiles st + 1)
         (written (dstpart, name f) (on_disk f) (answered (entered dstpart st))))
      (Ok (Copied (dstpart, name f)))
| body_copy_failed st' e :
    files (dst st) !! (dstpart, name f) = None ->
    copy_fails (on_disk f) (dstpart, name f) (entered dstpart st) st' e ->
    body_outcome md5 f dstpart st st' (Raise e)
| body_unreadable present :
    files (dst st) !! (dstpart, name f) = Some present ->
    readable (on_disk f) && readable present = false ->
    body_outcome md5 f dstpart st (entered dstpart st) (Raise OSError)
| body_identical present :
    files (dst st) !! (dstpart, name f) = Some present ->
    readable (on_disk f) = true -> readable present = true ->
    md5 (data (on_disk f)) = md5 (data present) ->
    body_outcome md5 f dstpart st (entered dstpart st) (Ok SkippedIdentical)
| body_suffixed present :
    files (dst st) !! (dstpart, name f) = Some present ->
    readable (on_disk f) = true -> readable present = true ->
    md5 (data (on_disk f)) <> md5 (data present) ->
    next_outcome st = CopyDone ->
    body_outcome md5 f dstpart st
      (written (dstpart, rand_prefix 5 (random_state st) +:+ "-" +:+ name f)
         (on_disk f)
         (answered (set_random_state (drop 5 (random_state st)) (entered dstpart st))))
      (Ok (CopiedWithSuffix
             (dstpart, rand_prefix 5 (random_state st) +:+ "-" +:+ name f)
             (rand_prefix 5 (random_state st))))
| body_suffix_failed present st' e :
    files (dst st) !! (dstpart, name f) = Some present ->
    readable (on_disk f) = true -> readable present = true ->
    md5 (data (on_disk f)) <> md5 (data present) ->
    copy_fails (on_disk f)
      (dstpart, rand_prefix 5 (random_state st) +:+ "-" +:+ name f)
      (set_random_state (drop 5 (random_state st)) (entered dstpart st)) st' e ->
    body_outcome md5 f dstpart st st' (Raise e).

(** ** Destination paths of a walk *)

(** The destination path of a triple of the walk holds a file. *)
Definition taken (m : gmap (string * string) file) (ev : walk_event) : Prop :=
  match ev with
  | Yield _ f dstpart => is_Some (m !! (dstpart, name f))
  | CannotProcess _ _ _ => True
  end.

(** The destination path of a triple of the walk holds a readable file
    with the digest of the source file, which is readable too. *)
Definition settled (md5 : string -> string) (m : gmap (string * string) file)
    (ev : walk_event) : Prop :=
  match ev with
  | Yield _ f dstpart =>
      exists present,
        m !! (dstpart, name f) = Some present /\
        readable present = true /\
        readable (on_disk f) = true /\
        md5 (data (on_disk f)) = md5 (data present)
  | CannotProcess _ _ _ => True
  end.

(** ** Fixtures *)

Definition plain (bytes : string) : file :=
  {| data := bytes; st_mtime := 1689430953; readable := true |}.


(** A file without EXIF data. *)
Definition bare (file bytes : string) : media :=
  {| name := file; on_disk := plain bytes; read_exif := Ok ∅;
     os_stat := Ok 1689430953 |}.

(** A file with a primary EXIF timestamp. *)
Definition stamped (file bytes value : string) : media :=
  {| name := file; on_disk := plain bytes;
     read_exif := Ok {[ "Exif.Image.DateTime" := value ]};
     os_stat := Ok 1689430953 |}.

(** A video file, which the script never opens before it copies it. *)
Definition clip (n : string) (body : file) : media :=
  {| name := n; on_disk := body; read_exif := Raise RuntimeError;
     os_stat := Ok (st_mtime body) |}.

Definition empty_dest : dest := {| files := ∅; dirs := ∅; copy_outcomes := [] |}.

(** A destination that holds [unknown/x.jpg] with the bytes [AAA]. *)
Definition one_file_dest : dest :=
  {| files := {[ ("unknown", "x.jpg") := plain "AAA" ]}; dirs := {[ "unknown" ]};
     copy_outcomes := [] |}.

(** The tree and the destination of a name collision in [2023-01]. *)
Definition recount_src : tree :=
  [("a", [bare "20230101_100000.jpg" "new bytes"])].

Definition recount_dest : dest :=
  {| files := {[ ("2023-01", "20230101_100000.jpg") := plain "old bytes" ]};
     dirs := {[ "2023-01" ]}; copy_outcomes := [] |}.


(** A video without a date in its name. *)
Definition holiday_clip : media := clip "holiday.mp4" (plain "film").

(** An image with a date in its name whose EXIF data cannot be read,
    and one whose timestamp has no colon. *)
Definition unreadable_photo : media :=
  {| name := "20230715_142233.jpg"; on_disk := plain "jpeg";
     read_exif := Raise RuntimeError; os_stat := Ok 1689430953 |}.

Definition garbled_photo : media :=
  stamped "20230715_142233.jpg" "jpeg" "garbage".

(** An image whose timestamp has a one-digit month, and one whose
    timestamp is blank. *)
Definition short_month_photo : media :=
  stamped "IMG_0099.png" "png" "2023:7:15 10:00:00".

Definition blank_date_photo : media :=
  stamped "IMG_0100.png" "png" "    :  :     ".



(** Two files of one name and different bytes, without any date. *)
Definition twin_src : tree :=
  [("a", [bare "x.jpg" "AAA"]); ("b", [bare "x.jpg" "BBB"])].

(** The tree of the end-to-end scenario. *)
Definition dated_photo : media := stamped "IMG_0099.png" "png" "2022:12:24 10:11:12".
Definition scenario_src : tree :=
  [("a", [bare "20230101_100000.jpg" "jpeg"]); ("b", [dated_photo])].

Definition utc : Z -> result date := Clock.fromtimestamp_at 0.



(** A destination on a full disk: the first copy creates its target,
    writes nothing and raises. *)
Definition full_dest : dest :=
  {| files := ∅; dirs := ∅; copy_outcomes := [CopyBroken (plain "") OSError] |}.

(** A destination that holds [unknown/x.jpg] and a file at the
    prefixed path the seed [0; 1; 2; 3; 4] leads to, and breaks off
    its first copy. *)
Definition crowded_dest : dest :=
  {| files := {[ ("unknown", "x.jpg") := plain "AAA";
                 ("unknown", "abcde-x.jpg") := plain "old" ]};
     dirs := {[ "unknown" ]};
     copy_outcomes := [CopyBroken (plain "") OSError] |}.

(** A movie with an upper-case extension beside a picture. *)
Definition movie_src : tree :=
  [("a", [clip "20230102_100000.MP4" (plain "two"); bare "x.jpg" "AAA"]);
   ("b", [holiday_clip])].

(** A stand-in digest for the examples: the bytes themselves. *)
Definition bytes_digest (bytes : string) : string := bytes.

(** ** Reading a file in chunks *)

(** The values of [iter(lambda: f.read(size), b"")] over the bytes that
    are left of an open file: the chunks up to the first empty read.
    [fuel] bounds the number of reads. *)
Fixpoint iter_read (size fuel : nat) (rest : string) : option (list string) :=
  match fuel with
  | O => None
  | S k =>
      let chunk := Str.take size rest in
      if String.eqb chunk "" then Some []
      else option_map (cons chunk) (iter_read size k (Str.drop size rest))
  end.

(** The chunks put together again. *)
Definition join_chunks (chunks : list string) : string :=
  fold_right String.append "" chunks.

Section Hashing.

(** A [hashlib] object: [hashlib.md5()], [update] and [hexdigest]. *)
Variable hash : Type.
Variable md5_new : hash.
Variable update : hash -> string -> hash.
Variable hexdigest : hash -> string.

(** The body of [get_md5sum] on the bytes of a file that opens: every
    chunk of 4096 bytes goes into the hash object, whose digest is
    returned. *)
Definition get_md5sum_of (fuel : nat) (bytes : string) : option string :=
  match iter_read 4096 fuel bytes with
  | Some chunks => Some (hexdigest (fold_left update chunks md5_new))
  | None => None
  end.

End Hashing.

(** A hash object for the examples: the bytes it was fed. *)
Definition fed_bytes (h : string) (chunk : string) : string := h +:+ chunk.

(** ** Counting and last characters *)

(** The number of occurrences of a character. *)
Fixpoint count_char (c : ascii) (s : string) : nat :=
  match s with
  | EmptyString => 0
  | String c' s' => (if Ascii.eqb c' c then 1 else 0) + count_char c s'
  end.

Fixpoint last_char (s : string) : option ascii :=
  match s with
  | EmptyString => None
  | String c EmptyString => Some c
  | String _ s' => last_char s'
  end.

(** A name that holds the date pattern: eight digits, an underscore,
    six digits and a dot, with any text before and after. *)
Definition holds_date_pattern (file : string) : Prop :=
  exists before dt time after,
    file = before +:+ dt +:+ "_" +:+ time +:+ "." +:+ after /\
    digits_n 8 dt = true /\ digits_n 6 time = true.

(** ** Files of a walk *)

(** The file an event of the walk is about. *)
Definition event_file (ev : walk_event) : string * media :=
  match ev with
  | Yield root f _ => (root, f)
  | CannotProcess root f _ => (root, f)
  end.

(** The tree without the files whose extension is not of the kind. *)
Definition only_candidates (file_type : string) (directory : tree) : tree :=
  map (fun d => (fst d, List.filter (candidate file_type) (snd d))) directory.

(** ** Paths written by a run *)

(** The paths of the decisions [Copied], in the order of the run. *)
Definition copied_paths (ds : list (string * media * CopyDecision)) : list dstpath :=
  flat_map (fun d => match snd d with Copied p => [p] | _ => [] end) ds.

(** The paths of the decisions [CopiedWithSuffix]. *)
Definition suffixed_paths (ds : list (string * media * CopyDecision)) : list dstpath :=
  flat_map (fun d => match snd d with CopiedWithSuffix p _ => [p] | _ => [] end) ds.

(** Every file of the destination lies in a sub-directory that exists. *)
Definition housed (d : dest) : Prop :=
  map_Forall (fun p _ => fst p ∈ dirs d) (files d).

(** The buckets remembered in [createdSubdirs] exist. *)
Definition memo_in_dirs (st : state) : Prop :=
  forall k, is_Some (createdSubdirs st !! k) -> k ∈ dirs (dst st).

(** ** Error records and the memo of buckets *)

(** The records the walk sends to the logger. *)
Definition error_records (events : list walk_event) : list log_record :=
  flat_map (fun ev => match ev with
                      | CannotProcess root f e => [CannotProcessImage root (name f) e]
                      | Yield _ _ _ => []
                      end) events.

(** The state with nothing remembered in [createdSubdirs]. *)
Definition forget_memo (st : state) : state := set_createdSubdirs ∅ st.

(** * Properties *)

(** ** The model at work *)

Example lower_JPG : Str.lower "Photo.JPG" = "photo.jpg".
Proof. reflexivity. Qed.

Example split_exif :
  Str.split ":" 2 "2022:12:24 10:11:12" = ["2022"; "12"; "24 10:11:12"].
Proof. reflexivity. Qed.

Example split_short : Str.split ":" 2 "2022-12" = ["2022-12"].
Proof. reflexivity. Qed.

Example format_year : Str.format_0d 4 987 = "0987".
Proof. reflexivity. Qed.

Example format_negative : Str.format_0d 4 (-5) = "-005".
Proof. reflexivity. Qed.

Example format_wide : Str.format_0d 2 123 = "123".
Proof. reflexivity. Qed.

Example clock_2023_07_15 :
  Clock.fromtimestamp_at 0 1689430953 = Ok {| year := 2023; month := 7; day := 15 |}.
Proof. reflexivity. Qed.

Example clock_before_epoch :
  Clock.fromtimestamp_at 0 (-1) = Ok {| year := 1969; month := 12; day := 31 |}.
Proof. reflexivity. Qed.

Example clock_leap_day :
  Clock.fromtimestamp_at 3600 951778800 = Ok {| year := 2000; month := 2; day := 29 |}.
Proof. reflexivity. Qed.

Example clock_year_10000 :
  Clock.fromtimestamp_at 0 253402300799 = Ok {| year := 9999; month := 12; day := 31 |} /\
  Clock.fromtimestamp_at 0 253402300800 = Raise ValueError.
Proof. split; reflexivity. Qed.

Example datere_plain : datere_search "20230715_142233.jpg" = Some "20230715".
Proof. reflexivity. Qed.

Example datere_inside : datere_search "IMG_20191231_235959.mp4" = Some "20191231".
Proof. reflexivity. Qed.

Example datere_long_run : datere_search "120230715_142233.jpg" = Some "20230715".
Proof. reflexivity. Qed.

Example datere_none : datere_search "IMG_0099.png" = None.
Proof. reflexivity. Qed.

Example datere_no_dot : datere_search "20230715_142233" = None.
Proof. reflexivity. Qed.

(** ** Digits and formatting *)

Lemma digits_here_spec n s g r :
  Str.digits_here n s = Some (g, r) -> digits_n n g = true /\ s = g +:+ r.
Proof.
  revert s g r. induction n as [|n IH]; intros s g r H; simpl in H.
  - injection H as <- <-. split; reflexivity.
  - destruct s as [|c s']; [discriminate|].
    destruct (Str.is_digit c) eqn:Hc; [|discriminate].
    destruct (Str.digits_here n s') as [[d r']|] eqn:Hd; [|discriminate].
    injection H as <- <-.
    destruct (IH _ _ _ Hd) as [Hn ->].
    unfold digits_n in *. simpl. rewrite Hc.
    apply andb_true_iff in Hn as [Hl Ha]. rewrite Ha.
    apply Nat.eqb_eq in Hl. rewrite Hl, Nat.eqb_refl. split; reflexivity.
Qed.

Lemma datere_here_digits s g :
  datere_here s = Some g -> digits_n 8 g = true.
Proof.
  unfold datere_here. intros H.
  destruct (Str.digits_here 8 s) as [[g' r1]|] eqn:Hd; [|discriminate].
  apply digits_here_spec in Hd as [Hg _].
  destruct (Str.char_here "_" r1); [|discriminate].
  destruct (Str.digits_here 6 s0) as [[? r3]|]; [|discriminate].
  destruct (Str.char_here "." r3); [|discriminate].
  injection H as <-. exact Hg.
Qed.

Lemma datere_search_digits s g :
  datere_search s = Some g -> digits_n 8 g = true.
Proof.
  induction s as [|c s IH]; simpl.
  - discriminate.
  - destruct (datere_here (String c s)) eqn:H.
    + intros [= <-]. eapply datere_here_digits, H.
    + exact IH.
Qed.

Lemma digit_code c :
  Str.is_digit c = true ->
  exists d, (d < 10)%nat /\ c = ascii_of_nat (48 + d).
Proof.
  unfold Str.is_digit. intros H.
  apply andb_true_iff in H as [H1 H2].
  apply Nat.leb_le in H1, H2.
  exists (nat_of_ascii c - 48)%nat. split; [lia|].
  replace (48 + (nat_of_ascii c - 48))%nat with (nat_of_ascii c) by lia.
  symmetry. apply ascii_nat_embedding.
Qed.

Lemma below_ten (P : nat -> bool) :
  forallb P (seq 0 10) = true -> forall d, (d < 10)%nat -> P d = true.
Proof.
  intros H d Hd. rewrite forallb_forall in H. apply H, in_seq. lia.
Qed.

(** Writing the value of four digits back with [{:04d}] gives the four
    digits. *)
Lemma format_4_digits s :
  digits_n 4 s = true -> Str.format_0d 4 (Str.int s) = s.
Proof.
  intros H. unfold digits_n in H.
  destruct s as [|a [|b [|c [|d [|? ?]]]]]; try discriminate H.
  simpl in H.
  apply andb_true_iff in H as [Ha H]. apply andb_true_iff in H as [Hb H].
  apply andb_true_iff in H as [Hc H]. apply andb_true_iff in H as [Hd _].
  destruct (digit_code _ Ha) as (na & La & ->).
  destruct (digit_code _ Hb) as (nb & Lb & ->).
  destruct (digit_code _ Hc) as (nc & Lc & ->).
  destruct (digit_code _ Hd) as (nd & Ld & ->).
  fold (digit_char na) (digit_char nb) (digit_char nc) (digit_char nd).
  assert (Hall : forallb (fun a => forallb (fun b => forallb (fun c =>
            forallb (fun d =>
              let t := String (digit_char a) (String (digit_char b)
                         (String (digit_char c) (String (digit_char d) ""))) in
              String.eqb (Str.format_0d 4 (Str.int t)) t)
            (seq 0 10)) (seq 0 10)) (seq 0 10)) (seq 0 10) = true)
    by (vm_compute; reflexivity).
  pose proof (below_ten _ Hall na La) as H1. cbv beta in H1.
  pose proof (below_ten _ H1 nb Lb) as H2. cbv beta in H2.
  pose proof (below_ten _ H2 nc Lc) as H3. cbv beta in H3.
  pose proof (below_ten _ H3 nd Ld) as H4. cbv beta zeta in H4.
  apply String.eqb_eq in H4. exact H4.
Qed.

Lemma format_2_digits s :
  digits_n 2 s = true -> Str.format_0d 2 (Str.int s) = s.
Proof.
  intros H. unfold digits_n in H.
  destruct s as [|a [|b [|? ?]]]; try discriminate H.
  simpl in H.
  apply andb_true_iff in H as [Ha H]. apply andb_true_iff in H as [Hb _].
  destruct (digit_code _ Ha) as (na & La & ->).
  destruct (digit_code _ Hb) as (nb & Lb & ->).
  fold (digit_char na) (digit_char nb).
  assert (Hall : forallb (fun a => forallb (fun b =>
              let t := String (digit_char a) (String (digit_char b) "") in
              String.eqb (Str.format_0d 2 (Str.int t)) t)
            (seq 0 10)) (seq 0 10) = true)
    by (vm_compute; reflexivity).
  pose proof (below_ten _ Hall na La) as H1. cbv beta in H1.
  pose proof (below_ten _ H1 nb Lb) as H2. cbv beta zeta in H2.
  apply String.eqb_eq in H2. exact H2.
Qed.

(** ** The random prefix *)

Lemma letters_get i :
  (i < 36)%nat ->
  exists c, String.get i letters = Some c /\ lower_alnum c = true.
Proof.
  intros Hi.
  assert (H : forallb (fun i => match String.get i letters with
                                | Some c => lower_alnum c
                                | None => false
                                end) (seq 0 36) = true) by (vm_compute; reflexivity).
  rewrite forallb_forall in H.
  specialize (H i). rewrite in_seq in H. specialize (H ltac:(lia)).
  destruct (String.get i letters) as [c|]; [|discriminate].
  exists c. split; [reflexivity|exact H].
Qed.

Lemma rand_str_runs n st :
  rand_str n st =
    (set_random_state (drop n (random_state st)) st,
     Ok (rand_prefix n (random_state st))).
Proof.
  revert st. induction n as [|n IH]; intros st.
  - destruct st. reflexivity.
  - cbn [rand_str rand_prefix].
    unfold mbind, M_bind, random_choice.
    change (String.length letters) with 36%nat.
    destruct (letters_get (hd 0%nat (random_state st) mod 36)) as (c & Hc & _).
    { apply Nat.mod_upper_bound. discriminate. }
    rewrite Hc, IH. unfold mret, M_ret.
    destruct st as [? ? ? ? rs ? ?].
    destruct rs; cbn; rewrite ?drop_nil; reflexivity.
Qed.

Lemma rand_prefix_length n l : String.length (rand_prefix n l) = n.
Proof.
  revert l. induction n as [|n IH]; intros l; cbn [rand_prefix]; [reflexivity|].
  destruct (letters_get (hd 0%nat l mod 36)) as (c & Hc & _).
  { apply Nat.mod_upper_bound. discriminate. }
  rewrite Hc. cbn [String.length]. rewrite IH. reflexivity.
Qed.

Lemma rand_prefix_alphabet n l : all_lower_alnum (rand_prefix n l) = true.
Proof.
  revert l. induction n as [|n IH]; intros l; cbn [rand_prefix]; [reflexivity|].
  destruct (letters_get (hd 0%nat l mod 36)) as (c & Hc & Hl).
  { apply Nat.mod_upper_bound. discriminate. }
  rewrite Hc. cbn [all_lower_alnum]. rewrite Hl, IH. reflexivity.
Qed.

Lemma length_append (a b : string) :
  String.length (a +:+ b) = (String.length a + String.length b)%nat.
Proof. induction a as [|c a IH]; simpl; [reflexivity|]. rewrite IH. reflexivity. Qed.

(** A prefixed name is never the name itself. *)
Lemma prefixed_name_differs (prefix file : string) :
  prefix +:+ "-" +:+ file <> file.
Proof.
  intros H. apply (f_equal String.length) in H.
  rewrite !length_append in H. simpl in H. lia.
Qed.

(** ** The loop body, case by case *)

(** Runs the statements of the monad that are at the head of the goal. *)
Ltac run_M :=
  repeat (progress (
    unfold mbind, M_bind, mret, M_ret, gets, modify, mkdir, compare_md5sums,
      get_md5sum, raise;
    cbn [dst createdSubdirs nfiles cfiles random_state log decisions
         set_nfiles set_createdSubdirs set_dst set_cfiles set_random_state
         written files dirs copy_outcomes andb negb])).

Lemma copy2_outcome src to st :
  (readable src = true /\ next_outcome st = CopyDone /\
   copy2 src to st = (written to src (answered st), Ok tt)) \/
  (exists st' e, copy2 src to st = (st', Raise e) /\ copy_fails src to st st' e).
Proof.
  unfold copy2. destruct (readable src) eqn:Hsrc.
  - destruct (hd CopyDone (copy_outcomes (dst st))) as [|e|residue e] eqn:Hnext.
    + left. auto.
    + right. exists (answered st), e. split; [reflexivity|].
      apply fails_refused; assumption.
    + right. exists (written to residue (answered st)), e. split; [reflexivity|].
      apply fails_broken; assumption.
  - right. exists st, OSError. split; [reflexivity|]. apply fails_unreadable, Hsrc.
Qed.

(** What a failed copy leaves: every field but the destination as it
    was, the sub-directories too, and the files as they were but for a
    residue at the target. *)
Lemma copy_fails_frame src to st st' e :
  copy_fails src to st st' e ->
  createdSubdirs st' = createdSubdirs st /\ nfiles st' = nfiles st /\
  cfiles st' = cfiles st /\ random_state st' = random_state st /\
  log st' = log st /\ decisions st' = decisions st /\
  dirs (dst st') = dirs (dst st) /\
  (files (dst st') = files (dst st) \/
   exists residue, files (dst st') = <[to := residue]> (files (dst st))).
Proof.
  destruct 1; cbn [written answered set_dst createdSubdirs nfiles cfiles
                   random_state log decisions dst dirs files];
    repeat split; eauto.
Qed.

Lemma entered_files dstpart st : files (dst (entered dstpart st)) = files (dst st).
Proof.
  unfold entered. destruct (bool_decide _); destruct st; reflexivity.
Qed.

Lemma entered_outcomes dstpart st :
  copy_outcomes (dst (entered dstpart st)) = copy_outcomes (dst st).
Proof.
  unfold entered. destruct (bool_decide _); destruct st; reflexivity.
Qed.

Lemma entered_cfiles dstpart st : cfiles (entered dstpart st) = cfiles st.
Proof.
  unfold entered. destruct (bool_decide _); destruct st; reflexivity.
Qed.

Lemma entered_nfiles dstpart st : nfiles (entered dstpart st) = (nfiles st + 1)%nat.
Proof.
  unfold entered. destruct (bool_decide _); destruct st; reflexivity.
Qed.

Lemma entered_decisions dstpart st : decisions (entered dstpart st) = decisions st.
Proof.
  unfold entered. destruct (bool_decide _); destruct st; reflexivity.
Qed.

Lemma entered_log dstpart st : log (entered dstpart st) = log st.
Proof.
  unfold entered. destruct (bool_decide _); destruct st; reflexivity.
Qed.

Lemma entered_random_state dstpart st :
  random_state (entered dstpart st) = random_state st.
Proof.
  unfold entered. destruct (bool_decide _); destruct st; reflexivity.
Qed.

Section Body.

Variable md5 : string -> string.

Lemma main_body_cases srcdir f dstpart st :
  main_body md5 srcdir f dstpart st =
    let p := (dstpart, name f) in
    let st1 := entered dstpart st in
    match files (dst st) !! p with
    | None =>
        match copy2 (on_disk f) p st1 with
        | (st2, Ok _) => (set_cfiles (cfiles st2 + 1) st2, Ok (Copied p))
        | (st2, Raise e) => (st2, Raise e)
        end
    | Some present =>
        if readable (on_disk f) && readable present then
          if String.eqb (md5 (data (on_disk f))) (md5 (data present))
          then (st1, Ok SkippedIdentical)
          else
            let prefix := rand_prefix 5 (random_state st) in
            let q := (dstpart, prefix +:+ "-" +:+ name f) in
            match copy2 (on_disk f) q
                    (set_random_state (drop 5 (random_state st)) st1) with
            | (st2, Ok _) => (st2, Ok (CopiedWithSuffix q prefix))
            | (st2, Raise e) => (st2, Raise e)
            end
        else (st1, Raise OSError)
    end.
Proof.
  destruct st as [d cs nf cf rs lg ds].
  unfold main_body, entered. run_M.
  destruct (bool_decide (is_Some (cs !! dstpart))); run_M;
    (destruct (files d !! (dstpart, name f)) as [present|]; run_M;
     [ destruct (readable (on_disk f)); run_M; try reflexivity;
       destruct (readable present); run_M; try reflexivity;
       destruct (String.eqb (md5 (data (on_disk f))) (md5 (data present)));
       run_M; try reflexivity;
       rewrite rand_str_runs; run_M;
       match goal with |- context [copy2 ?a ?b ?c] => destruct (copy2 a b c) as [? [[]|?]] end;
       reflexivity
     | match goal with |- context [copy2 ?a ?b ?c] => destruct (copy2 a b c) as [? [[]|?]] end;
       reflexivity ]).
Qed.

(** Every run of the body is one of the ways of [body_outcome]. *)
Lemma main_body_outcome srcdir f dstpart st st' r :
  main_body md5 srcdir f dstpart st = (st', r) ->
  body_outcome md5 f dstpart st st' r.
Proof.
  rewrite main_body_cases. cbv zeta. intros H.
  destruct (files (dst st) !! (dstpart, name f)) as [present|] eqn:Hp.
  - destruct (readable (on_disk f) && readable present) eqn:Hread.
    + apply andb_true_iff in Hread as [Hs Hd].
      destruct (String.eqb (md5 (data (on_disk f))) (md5 (data present))) eqn:He.
      * apply pair_equal_spec in H as [<- <-]. apply String.eqb_eq in He.
        eapply body_identical; eassumption.
      * apply String.eqb_neq in He.
        destruct (copy2_outcome (on_disk f)
                    (dstpart, rand_prefix 5 (random_state st) +:+ "-" +:+ name f)
                    (set_random_state (drop 5 (random_state st)) (entered dstpart st)))
          as [(_ & Hnext & Hc)|(st2 & e & Hc & Hfail)];
          rewrite Hc in H; apply pair_equal_spec in H as [<- <-].
        -- eapply body_suffixed; try eassumption.
           unfold next_outcome in *. cbn [set_random_state dst] in Hnext.
           rewrite entered_outcomes in Hnext. exact Hnext.
        -- eapply body_suffix_failed; eassumption.
    + apply pair_equal_spec in H as [<- <-].
      eapply body_unreadable; eassumption.
  - destruct (copy2_outcome (on_disk f) (dstpart, name f) (entered dstpart st))
      as [(Hs & Hnext & Hc)|(st2 & e & Hc & Hfail)];
      rewrite Hc in H; apply pair_equal_spec in H as [<- <-].
    + cbn [written answered set_dst cfiles]. rewrite entered_cfiles.
      unfold next_outcome in Hnext. rewrite entered_outcomes in Hnext.
      apply body_copied; assumption.
    + apply body_copy_failed; assumption.
Qed.

End Body.

(** ** One placement *)

Lemma rand_prefix_get n l i :
  (i < n)%nat ->
  String.get i (rand_prefix n l) =
    String.get (List.nth i l 0%nat mod 36) letters.
Proof.
  revert l i. induction n as [|n IH]; intros l i Hi; [lia|].
  cbn [rand_prefix].
  destruct (letters_get (hd 0%nat l mod 36)) as (c & Hc & _).
  { apply Nat.mod_upper_bound. discriminate. }
  rewrite Hc. destruct i as [|i].
  - cbn [String.get]. rewrite <- Hc. destruct l; reflexivity.
  - cbn [String.get]. rewrite IH by lia.
    destruct l as [|x l]; [destruct i|]; reflexivity.
Qed.

Section Placement.

Variable md5 : string -> string.

(** What a placement does to the files and to the count of copies, by
    its result. *)
Lemma main_body_files srcdir f dstpart st st' r :
  main_body md5 srcdir f dstpart st = (st', r) ->
  let p := (dstpart, name f) in
  match r with
  | Ok (Copied _) =>
      files (dst st) !! p = None /\ readable (on_disk f) = true /\
      files (dst st') = <[p := on_disk f]> (files (dst st)) /\
      cfiles st' = (cfiles st + 1)%nat
  | Ok SkippedIdentical =>
      settled md5 (files (dst st)) (Yield srcdir f dstpart) /\
      files (dst st') = files (dst st) /\ cfiles st' = cfiles st
  | Ok (CopiedWithSuffix q _) =>
      is_Some (files (dst st) !! p) /\
      files (dst st') = <[q := on_disk f]> (files (dst st)) /\
      cfiles st' = cfiles st
  | Ok (Failed _) => False
  | Raise _ =>
      cfiles st' = cfiles st /\
      (files (dst st') = files (dst st) \/
       exists target residue,
         files (dst st') = <[target := residue]> (files (dst st)) /\
         (target = p /\ files (dst st) !! p = None \/
          is_Some (files (dst st) !! p) /\
          exists prefix, target = (dstpart, prefix +:+ "-" +:+ name f)))
  end.
Proof.
  intros H. apply main_body_outcome in H. cbv zeta.
  destruct H as [Hp Hs Hn|st' e Hp Hf|present Hp Hr|present Hp Hs Hd He
                |present Hp Hs Hd He Hn|present st' e Hp Hs Hd He Hf].
  - cbn [written answered set_dst set_cfiles dst files cfiles].
    rewrite entered_files. auto.
  - apply copy_fails_frame in Hf
      as (_ & _ & Hc & _ & _ & _ & _ & Hfiles).
    rewrite entered_cfiles in Hc. rewrite entered_files in Hfiles.
    split; [exact Hc|]. destruct Hfiles as [Hsame|[residue Hw]]; [auto|].
    right. exists (dstpart, name f), residue. auto.
  - rewrite entered_files, entered_cfiles. auto.
  - rewrite entered_files, entered_cfiles. repeat split.
    exists present. auto.
  - cbn [written answered set_dst set_random_state dst files cfiles].
    rewrite entered_files, entered_cfiles, Hp. eauto.
  - apply copy_fails_frame in Hf
      as (_ & _ & Hc & _ & _ & _ & _ & Hfiles).
    cbn [set_random_state cfiles dst] in Hc, Hfiles.
    rewrite entered_cfiles in Hc. rewrite entered_files in Hfiles.
    split; [exact Hc|]. destruct Hfiles as [Hsame|[residue Hw]]; [auto|].
    right. eexists _, residue. split; [exact Hw|]. right.
    rewrite Hp. eauto.
Qed.

(** C4: a file that is at the destination path of a placement is still
    there, unchanged, after the placement.  The placement either finds
    the digests equal and writes no file, or writes the incoming file
    under a prefixed name, which is another path, or fails; a failing
    placement leaves the files as they were but for the target of a
    copy under a prefixed name that broke off. *)
Theorem existing_destination_file_is_kept srcdir f dstpart st present st' r :
  files (dst st) !! (dstpart, name f) = Some present ->
  main_body md5 srcdir f dstpart st = (st', r) ->
  files (dst st') !! (dstpart, name f) = Some present /\
  ((r = Ok SkippedIdentical /\
    md5 (data (on_disk f)) = md5 (data present) /\
    files (dst st') = files (dst st)) \/
   (exists prefix,
      r = Ok (CopiedWithSuffix (dstpart, prefix +:+ "-" +:+ name f) prefix) /\
      (dstpart, prefix +:+ "-" +:+ name f) <> (dstpart, name f) /\
      files (dst st') =
        <[(dstpart, prefix +:+ "-" +:+ name f) := on_disk f]> (files (dst st))) \/
   (exists e, r = Raise e /\
      (files (dst st') = files (dst st) \/
       exists prefix residue,
         (dstpart, prefix +:+ "-" +:+ name f) <> (dstpart, name f) /\
         files (dst st') =
           <[(dstpart, prefix +:+ "-" +:+ name f) := residue]> (files (dst st))))).
Proof.
  intros Hpresent Hrun. apply main_body_outcome in Hrun.
  assert (Hne : forall prefix,
            (dstpart, prefix +:+ "-" +:+ name f) <> (dstpart, name f)).
  { intros prefix [= H]. exact (prefixed_name_differs _ _ H). }
  destruct Hrun as [Hp Hs Hn|st' e Hp Hf|present' Hp Hr|present' Hp Hs Hd He
                   |present' Hp Hs Hd He Hn|present' st' e Hp Hs Hd He Hf].
  - rewrite Hp in Hpresent. discriminate.
  - rewrite Hp in Hpresent. discriminate.
  - rewrite entered_files. split; [exact Hpresent|].
    right. right. exists OSError. auto.
  - rewrite entered_files. split; [exact Hpresent|]. left.
    rewrite Hp in Hpresent. injection Hpresent as ->. auto.
  - cbn [written answered set_dst set_random_state dst files].
    rewrite entered_files. split.
    + rewrite lookup_insert_ne by apply Hne. exact Hpresent.
    + right. left. eexists. split; [reflexivity|]. split; [apply Hne|reflexivity].
  - apply copy_fails_frame in Hf as (_ & _ & _ & _ & _ & _ & _ & Hfiles).
    cbn [set_random_state dst] in Hfiles. rewrite entered_files in Hfiles.
    destruct Hfiles as [->|[residue ->]].
    + split; [exact Hpresent|]. right. right. exists e. auto.
    + split.
      * rewrite lookup_insert_ne by apply Hne. exact Hpresent.
      * right. right. exists e. split; [reflexivity|]. right.
        eexists _, residue. split; [apply Hne|reflexivity].
Qed.

(** C5: when the destination path is taken and both files can be read,
    the file at the destination path stays as it was.  Equal digests
    end the placement as SkippedIdentical, with the files of the
    destination and the generator as they were.  Different digests draw
    a prefix of five characters from the generator, each the letter of
    [ascii_lowercase + digits] at the index the generator gives, and
    copy the source to [dstpart/{prefix}-{file}]; when the destination
    does not carry the copy through, the placement raises instead. *)
Theorem collision_skips_or_copies_with_prefix srcdir f dstpart st present st' r :
  files (dst st) !! (dstpart, name f) = Some present ->
  readable (on_disk f) = true ->
  readable present = true ->
  main_body md5 srcdir f dstpart st = (st', r) ->
  files (dst st') !! (dstpart, name f) = Some present /\
  if String.eqb (md5 (data (on_disk f))) (md5 (data present))
  then r = Ok SkippedIdentical /\ files (dst st') = files (dst st) /\
       random_state st' = random_state st
  else exists prefix,
         String.length prefix = 5%nat /\
         all_lower_alnum prefix = true /\
         (forall i, (i < 5)%nat ->
            String.get i prefix =
              String.get (List.nth i (random_state st) 0%nat mod 36) letters) /\
         random_state st' = drop 5 (random_state st) /\
         match next_outcome st with
         | CopyDone =>
             r = Ok (CopiedWithSuffix (dstpart, prefix +:+ "-" +:+ name f) prefix) /\
             files (dst st') =
               <[(dstpart, prefix +:+ "-" +:+ name f) := on_disk f]> (files (dst st))
         | CopyRefused e =>
             r = Raise e /\ files (dst st') = files (dst st)
         | CopyBroken residue e =>
             r = Raise e /\
             files (dst st') =
               <[(dstpart, prefix +:+ "-" +:+ name f) := residue]> (files (dst st))
         end.
Proof.
  intros Hpresent Hsrc Hdst Hrun. apply main_body_outcome in Hrun.
  assert (Hne : forall prefix,
            (dstpart, prefix +:+ "-" +:+ name f) <> (dstpart, name f)).
  { intros prefix [= H]. exact (prefixed_name_differs _ _ H). }
  assert (Hnext : forall s, next_outcome
            (set_random_state s (entered dstpart st)) = next_outcome st).
  { intros s. unfold next_outcome. cbn [set_random_state dst].
    rewrite entered_outcomes. reflexivity. }
  destruct Hrun as [Hp Hs Hn|st' e Hp Hf|present' Hp Hr|present' Hp Hs Hd He
                   |present' Hp Hs Hd He Hn|present' st' e Hp Hs Hd He Hf];
    try (rewrite Hp in Hpresent; discriminate);
    pose proof Hpresent as Hkept;
    rewrite Hp in Hpresent; injection Hpresent as ->.
  - rewrite Hsrc, Hdst in Hr. discriminate.
  - apply String.eqb_eq in He. rewrite He.
    rewrite entered_files, entered_random_state. auto.
  - apply String.eqb_neq in He. rewrite He.
    cbn [written answered set_dst set_random_state dst files random_state].
    rewrite entered_files. split.
    + rewrite lookup_insert_ne by apply Hne. exact Hkept.
    + exists (rand_prefix 5 (random_state st)).
      split; [apply rand_prefix_length|].
      split; [apply rand_prefix_alphabet|].
      split; [intros i Hi; apply rand_prefix_get, Hi|].
      rewrite Hn. auto.
  - apply String.eqb_neq in He. rewrite He.
    destruct Hf as [Hu|e Hu Ho|residue e Hu Ho].
    + rewrite Hsrc in Hu. discriminate.
    + rewrite Hnext in Ho.
      cbn [answered set_dst set_random_state dst files random_state].
      rewrite entered_files. split; [exact Hkept|].
      exists (rand_prefix 5 (random_state st)).
      split; [apply rand_prefix_length|].
      split; [apply rand_prefix_alphabet|].
      split; [intros i Hi; apply rand_prefix_get, Hi|].
      rewrite Ho. auto.
    + rewrite Hnext in Ho.
      cbn [written answered set_dst set_random_state dst files random_state].
      rewrite entered_files. split.
      * rewrite lookup_insert_ne by apply Hne. exact Hkept.
      * exists (rand_prefix 5 (random_state st)).
        split; [apply rand_prefix_length|].
        split; [apply rand_prefix_alphabet|].
        split; [intros i Hi; apply rand_prefix_get, Hi|].
        rewrite Ho. auto.
Qed.

End Placement.
(** ** The loop *)

Section Loop.

Variable md5 : string -> string.
Variable fromtimestamp : Z -> result date.

(** The body counts the file, and touches neither the log nor the
    decisions. *)
Lemma main_body_frame srcdir f dstpart st st' r :
  main_body md5 srcdir f dstpart st = (st', r) ->
  decisions st' = decisions st /\ log st' = log st /\
  nfiles st' = S (nfiles st).
Proof.
  intros H. apply main_body_outcome in H.
  destruct H as [Hp Hs Hn|st' e Hp Hf|present Hp Hr|present Hp Hs Hd He
                |present Hp Hs Hd He Hn|present st' e Hp Hs Hd He Hf];
    try (apply copy_fails_frame in Hf as (_ & Hn' & _ & _ & Hl & Hd' & _);
         rewrite Hn', Hl, Hd');
    cbn [written answered set_dst set_cfiles set_random_state
         decisions log nfiles];
    rewrite entered_decisions, entered_log, entered_nfiles;
    repeat split; lia.
Qed.

Lemma main_body_decisions srcdir f dstpart st st' r :
  main_body md5 srcdir f dstpart st = (st', r) -> decisions st' = decisions st.
Proof. intros H. apply main_body_frame in H as [H _]. exact H. Qed.


Lemma main_body_not_Failed srcdir f dstpart st st' d :
  main_body md5 srcdir f dstpart st = (st', Ok d) -> is_Failed d = false.
Proof.
  intros H. apply main_body_outcome in H.
  inversion H; reflexivity.
Qed.

(** The body raises when the source file cannot be read, when the file
    at the destination path cannot be read for hashing, or when the
    destination does not carry a copy through. *)
Lemma main_body_raises srcdir f dstpart st st' e :
  main_body md5 srcdir f dstpart st = (st', Raise e) ->
  (e = OSError /\
   (readable (on_disk f) = false \/
    exists present,
      files (dst st) !! (dstpart, name f) = Some present /\
      readable present = false)) \/
  next_outcome st = CopyRefused e \/
  exists residue, next_outcome st = CopyBroken residue e.
Proof.
  intros H. apply main_body_outcome in H.
  assert (Hnext : forall s, next_outcome
            (set_random_state s (entered dstpart st)) = next_outcome st).
  { intros s. unfold next_outcome. cbn [set_random_state dst].
    rewrite entered_outcomes. reflexivity. }
  inversion H as [| ? ? Hp Hf | present Hp Hr | | | present ? ? Hp Hs Hd He Hf];
    subst.
  - destruct Hf as [Hu|e' Hu Ho|residue e' Hu Ho].
    + left. auto.
    + right. left. rewrite <- (Hnext []). exact Ho.
    + right. right. exists residue. rewrite <- (Hnext []). exact Ho.
  - left. split; [reflexivity|].
    apply andb_false_iff in Hr as [Hr|Hr]; [auto|right; eauto].
  - destruct Hf as [Hu|e' Hu Ho|residue e' Hu Ho].
    + left. auto.
    + right. left. rewrite <- (Hnext (drop 5 (random_state st))). exact Ho.
    + right. right. exists residue.
      rewrite <- (Hnext (drop 5 (random_state st))). exact Ho.
Qed.


(** The decisions a run of the loop adds: one for each file handed to
    it, in order, up to the file whose body raised, which comes last
    and is the only [Failed] one. *)
Lemma main_loop_decisions evs st st' r :
  main_loop md5 evs st = (st', r) ->
  exists ds,
    decisions st' = decisions st ++ ds /\
    map fst ds `prefix_of` yielded evs /\
    match r with
    | Ok _ => map fst ds = yielded evs /\ forallb (fun d => negb (is_Failed d.2)) ds = true
    | Raise e => exists ds' last, ds = ds' ++ [(last, Failed e)]
    end.
Proof.
  revert st. induction evs as [|ev evs IH]; intros st H.
  - apply pair_equal_spec in H as [<- <-]. exists [].
    rewrite app_nil_r. repeat split. reflexivity.
  - destruct ev as [root f dstpart|root f e]; cbn [main_loop] in H.
    + destruct (main_body md5 root f dstpart st) as [st1 [d|e]] eqn:Hbody.
      * apply IH in H as (ds & Hds & Hpre & Hr).
        pose proof (main_body_not_Failed _ _ _ _ _ _ Hbody) as Hd.
        apply main_body_decisions in Hbody.
        exists ((root, f, d) :: ds). split; [|split].
        -- rewrite Hds. cbn [add_decision decisions]. rewrite Hbody, <- app_assoc.
           reflexivity.
        -- cbn [yielded flat_map map fst app]. apply prefix_cons. exact Hpre.
        -- destruct r as [[]|e].
           ++ destruct Hr as [Hall Hok]. cbn [yielded flat_map map fst app forallb snd].
              fold (yielded evs). rewrite Hall, Hok.
              split; [reflexivity|].
              rewrite Hd. reflexivity.
           ++ destruct Hr as (ds' & last & ->).
              exists ((root, f, d) :: ds'), last. reflexivity.
      * apply pair_equal_spec in H as [<- <-].
        apply main_body_decisions in Hbody.
        exists [(root, f, Failed e)]. split; [|split].
        -- cbn [add_decision decisions]. rewrite Hbody. reflexivity.
        -- cbn [yielded flat_map map fst app]. apply prefix_cons, prefix_nil.
        -- exists [], (root, f). reflexivity.
    + unfold mbind, M_bind, modify in H.
      apply IH in H as (ds & Hds & Hpre & Hr).
      exists ds. split; [|split].
      * rewrite Hds. reflexivity.
      * exact Hpre.
      * exact Hr.
Qed.

Lemma yielded_app evs1 evs2 : yielded (evs1 ++ evs2) = yielded evs1 ++ yielded evs2.
Proof. unfold yielded. apply flat_map_app. Qed.

Lemma yielded_walk directory file_type :
  yielded (walk_src_dir fromtimestamp directory file_type) =
    List.filter (inferred fromtimestamp file_type) (candidates directory file_type).
Proof.
  unfold walk_src_dir, candidates.
  induction directory as [|[root fs] directory IH]; [reflexivity|].
  cbn [flat_map fst snd]. rewrite yielded_app, List.filter_app, IH. f_equal.
  unfold walk_dir. cbn [fst snd]. clear IH.
  induction fs as [|f fs IHfs]; [reflexivity|].
  cbn [flat_map List.filter]. rewrite yielded_app, IHfs.
  unfold walk_file, inferred.
  destruct (candidate file_type f); [|reflexivity].
  cbn [map List.filter snd].
  destruct (infer_dest_folder fromtimestamp file_type f); reflexivity.
Qed.

(** The events a run of the loop used up, with the decisions and the
    error records they gave: all of them when the loop returns, and
    those up to the placement that raised otherwise; that placement has
    the only [Failed] decision. *)
Lemma main_loop_consumed evs st st' r :
  main_loop md5 evs st = (st', r) ->
  exists consumed rest ds,
    evs = consumed ++ rest /\
    decisions st' = decisions st ++ ds /\
    map fst ds = yielded consumed /\
    log st' = log st ++ error_records consumed /\
    match r with
    | Ok _ =>
        rest = [] /\ existsb (fun d => is_Failed d.2) ds = false
    | Raise e =>
        exists before root f dstpart ds',
          consumed = before ++ [Yield root f dstpart] /\
          ds = ds' ++ [(root, f, Failed e)] /\
          existsb (fun d => is_Failed d.2) ds' = false
    end.
Proof.
  revert st. induction evs as [|ev evs IH]; intros st H.
  - apply pair_equal_spec in H as [<- <-]. exists [], [], [].
    rewrite !app_nil_r. repeat split; reflexivity.
  - destruct ev as [root f dstpart|root f e]; cbn [main_loop] in H.
    + destruct (main_body md5 root f dstpart st) as [st1 [d|e]] eqn:Hbody.
      * pose proof (main_body_not_Failed _ _ _ _ _ _ Hbody) as Hd.
        apply main_body_frame in Hbody as (Hdec & Hlog & _).
        apply IH in H as (consumed & rest & ds & -> & Hds & Hmap & Hl & Hr).
        cbn [add_decision decisions log] in Hds, Hl.
        exists (Yield root f dstpart :: consumed), rest, ((root, f, d) :: ds).
        split; [reflexivity|].
        split; [rewrite Hds, Hdec, <- app_assoc; reflexivity|].
        split; [cbn [map fst yielded flat_map app]; fold (yielded consumed);
                rewrite Hmap; reflexivity|].
        split; [rewrite Hl, Hlog; reflexivity|].
        destruct r as [[]|e].
        -- destruct Hr as [-> Hok]. split; [reflexivity|].
           cbn [existsb snd]. rewrite Hd, Hok. reflexivity.
        -- destruct Hr as (before & root' & f' & dstpart' & ds' & -> & -> & Hok).
           exists (Yield root f dstpart :: before), root', f', dstpart',
                  ((root, f, d) :: ds').
           split; [reflexivity|]. split; [reflexivity|].
           cbn [existsb snd]. rewrite Hd, Hok. reflexivity.
      * apply pair_equal_spec in H as [<- <-].
        apply main_body_frame in Hbody as (Hdec & Hlog & _).
        exists [Yield root f dstpart], evs, [(root, f, Failed e)].
        cbn [add_decision decisions log]. rewrite Hdec, Hlog, app_nil_r.
        repeat split.
        exists [], root, f, dstpart, []. repeat split.
    + unfold mbind, M_bind, modify in H.
      apply IH in H as (consumed & rest & ds & -> & Hds & Hmap & Hl & Hr).
      cbn [add_log decisions log] in Hds, Hl.
      exists (CannotProcess root f e :: consumed), rest, ds.
      split; [reflexivity|]. split; [exact Hds|].
      split; [exact Hmap|].
      split; [rewrite Hl, <- app_assoc; reflexivity|].
      destruct r as [[]|e']; [exact Hr|].
      destruct Hr as (before & root' & f' & dstpart' & ds' & -> & -> & Hok).
      exists (CannotProcess root f e :: before), root', f', dstpart', ds'.
      repeat split. exact Hok.
Qed.

(** The state [main] ends in, by the state its loop ends in. *)
Lemma main_final src dst0 type seed :
  exists st r,
    main_loop md5 (walk_src_dir fromtimestamp src (default "image" type))
      (initial dst0 seed) = (st, r) /\
    let final := main md5 fromtimestamp src dst0 type seed in
    dst final = dst st /\ decisions final = decisions st /\
    nfiles final = nfiles st /\ cfiles final = cfiles st /\
    random_state final = random_state st /\
    log final = log st ++ match r with Ok _ => [] | Raise e => [FailedRun e] end
                  ++ [FilesFound (nfiles st); FilesCopied (cfiles st)].
Proof.
  unfold main, main_from.
  destruct (main_loop md5 (walk_src_dir fromtimestamp src (default "image" type))
              (initial dst0 seed)) as [st r].
  exists st, r. split; [reflexivity|].
  destruct r as [[]|e]; cbn [add_log dst decisions nfiles cfiles random_state log];
    rewrite <- ?app_assoc; repeat split; reflexivity.
Qed.



End Loop.
(** ** Two runs *)

Section TwoRuns.

Variable md5 : string -> string.
Variable fromtimestamp : Z -> result date.

Lemma settled_taken m ev : settled md5 m ev -> taken m ev.
Proof.
  destruct ev; [|trivial]. intros (present & H & _). exists present. exact H.
Qed.

(** A placement removes no file. *)
Lemma main_body_keeps srcdir f dstpart st st' r q :
  main_body md5 srcdir f dstpart st = (st', r) ->
  is_Some (files (dst st) !! q) -> is_Some (files (dst st') !! q).
Proof.
  intros H Hq. apply main_body_files in H. cbv zeta in H.
  destruct r as [[p|p s| |e]|e].
  - destruct H as (_ & _ & -> & _). apply lookup_insert_is_Some'. auto.
  - destruct H as (_ & -> & _). apply lookup_insert_is_Some'. auto.
  - destruct H as (_ & -> & _). exact Hq.
  - destruct H.
  - destruct H as [_ [->|(t & x & -> & _)]]; [exact Hq|].
    apply lookup_insert_is_Some'. auto.
Qed.

Lemma main_loop_keeps evs st st' r q :
  main_loop md5 evs st = (st', r) ->
  is_Some (files (dst st) !! q) -> is_Some (files (dst st') !! q).
Proof.
  revert st. induction evs as [|ev evs IH]; intros st H Hq.
  - apply pair_equal_spec in H as [<- _]. exact Hq.
  - destruct ev as [root f dstpart|root f e]; cbn [main_loop] in H.
    + destruct (main_body md5 root f dstpart st) as [st1 [d|e]] eqn:Hbody.
      * apply IH in H; [exact H|]. cbn [add_decision dst].
        eapply main_body_keeps; eauto.
      * apply pair_equal_spec in H as [<- _]. cbn [add_decision dst].
        eapply main_body_keeps; eauto.
    + unfold mbind, M_bind, modify in H. apply IH in H; [exact H|]. exact Hq.
Qed.

(** After a run of the loop that did not raise, the destination path of
    every triple is taken. *)
Lemma main_loop_takes evs st st' :
  main_loop md5 evs st = (st', Ok tt) -> Forall (taken (files (dst st'))) evs.
Proof.
  revert st. induction evs as [|ev evs IH]; intros st H; [constructor|].
  destruct ev as [root f dstpart|root f e]; cbn [main_loop] in H.
  - destruct (main_body md5 root f dstpart st) as [st1 [d|e]] eqn:Hbody;
      [|apply pair_equal_spec in H as [_ H]; discriminate H].
    constructor; [|eapply IH, H].
    cbn [taken]. eapply main_loop_keeps; [exact H|].
    cbn [add_decision dst].
    apply main_body_files in Hbody. cbv zeta in Hbody.
    destruct d as [p|p s| |e].
    + destruct Hbody as (_ & _ & -> & _). rewrite lookup_insert_eq. eauto.
    + destruct Hbody as (Hp & -> & _). apply lookup_insert_is_Some'. auto.
    + destruct Hbody as (Hs & -> & _). apply settled_taken in Hs. exact Hs.
    + destruct Hbody.
  - unfold mbind, M_bind, modify in H. constructor; [exact I|eapply IH, H].
Qed.

(** A run of the loop over triples whose destination paths are all
    taken counts no copy and decides none as [Copied]. *)
Lemma main_loop_all_taken evs st st' r :
  Forall (taken (files (dst st))) evs ->
  main_loop md5 evs st = (st', r) ->
  cfiles st' = cfiles st /\
  exists ds, decisions st' = decisions st ++ ds /\
             forallb (fun d => negb (is_Copied d.2)) ds = true.
Proof.
  revert st. induction evs as [|ev evs IH]; intros st Hall H.
  - apply pair_equal_spec in H as [<- _]. split; [reflexivity|].
    exists []. rewrite app_nil_r. auto.
  - apply Forall_cons in Hall as [Hev Hall].
    destruct ev as [root f dstpart|root f e]; cbn [main_loop] in H.
    + cbn [taken] in Hev. destruct Hev as [present Hp].
      destruct (main_body md5 root f dstpart st) as [st1 [d|e]] eqn:Hbody.
      * pose proof (main_body_decisions _ _ _ _ _ _ _ Hbody) as Hds.
        assert (Hrest : Forall (taken (files (dst (add_decision root f d st1)))) evs).
        { cbn [add_decision dst]. eapply Forall_impl; [exact Hall|].
          intros [? g dp|? ? ?] Hg; [|exact I]. cbn [taken] in *.
          eapply main_body_keeps; eauto. }
        apply main_body_files in Hbody. cbv zeta in Hbody.
        apply (IH _ Hrest) in H as (Hc & ds & Hdec & Hnc).
        cbn [add_decision cfiles decisions] in Hc, Hdec.
        destruct d as [p|p s| |e].
        -- destruct Hbody as (Hnone & _). rewrite Hp in Hnone. discriminate.
        -- destruct Hbody as (_ & _ & Hcf). split; [congruence|].
           exists ((root, f, CopiedWithSuffix p s) :: ds).
           rewrite Hdec, Hds, <- app_assoc. auto.
        -- destruct Hbody as (_ & _ & Hcf). split; [congruence|].
           exists ((root, f, SkippedIdentical) :: ds).
           rewrite Hdec, Hds, <- app_assoc. auto.
        -- destruct Hbody.
      * pose proof (main_body_decisions _ _ _ _ _ _ _ Hbody) as Hds.
        apply main_body_files in Hbody. cbv zeta in Hbody.
        destruct Hbody as [Hcf _].
        apply pair_equal_spec in H as [<- _].
        cbn [add_decision cfiles decisions]. split; [exact Hcf|].
        exists [(root, f, Failed e)]. rewrite Hds. auto.
    + unfold mbind, M_bind, modify in H.
      apply (IH (add_log (CannotProcessImage root (name f) e) st)) in H;
        [exact H|exact Hall].
Qed.

(** A run of the loop whose decisions are all [Copied] or
    [SkippedIdentical] did not raise and leaves every triple settled,
    together with those that were settled before. *)
Lemma main_loop_settles evs st st' r before :
  main_loop md5 evs st = (st', r) ->
  forallb (fun d => is_plain d.2) (decisions st') = true ->
  Forall (settled md5 (files (dst st))) before ->
  Forall (settled md5 (files (dst st'))) (before ++ evs) /\ r = Ok tt.
Proof.
  revert st before. induction evs as [|ev evs IH]; intros st before H Hplain Hbefore.
  - apply pair_equal_spec in H as [<- <-]. rewrite app_nil_r. auto.
  - replace (before ++ ev :: evs) with ((before ++ [ev]) ++ evs)
      by (rewrite <- app_assoc; reflexivity).
    destruct ev as [root f dstpart|root f e]; cbn [main_loop] in H.
    + destruct (main_body md5 root f dstpart st) as [st1 [d|e]] eqn:Hbody.
      * assert (Hd : is_plain d = true).
        { destruct (main_loop_decisions _ _ _ _ _ H) as (ds & Hds & _).
          rewrite Hds in Hplain. cbn [add_decision decisions] in Hplain.
          rewrite !forallb_app in Hplain. cbn [forallb snd] in Hplain.
          repeat (apply andb_true_iff in Hplain as [Hplain ?]).
          rewrite andb_true_r in *. assumption. }
        apply (IH _ _ H Hplain). cbn [add_decision dst].
        apply main_body_files in Hbody. cbv zeta in Hbody.
        destruct d as [p|p s| |e]; try discriminate Hd.
        -- destruct Hbody as (Hnone & Hread & -> & _).
           apply Forall_app. split.
           ++ eapply Forall_impl; [exact Hbefore|].
              intros [? g dp|? ? ?] Hg; [|exact I]. cbn [settled] in *.
              destruct Hg as (present & Hq & Hrest). exists present.
              split; [|exact Hrest].
              rewrite lookup_insert_ne; [exact Hq|].
              intros Heq. rewrite <- Heq, Hnone in Hq. discriminate.
           ++ constructor; [|constructor]. cbn [settled].
              exists (on_disk f). rewrite lookup_insert_eq. auto.
        -- destruct Hbody as (Hset & -> & _).
           apply Forall_app. split; [exact Hbefore|].
           constructor; [exact Hset|constructor].
      * apply pair_equal_spec in H as [<- _].
        cbn [add_decision decisions] in Hplain.
        rewrite forallb_app in Hplain. cbn in Hplain.
        rewrite andb_false_r in Hplain. discriminate.
    + unfold mbind, M_bind, modify in H.
      apply (IH _ _ H Hplain). cbn [add_log dst].
      apply Forall_app. split; [exact Hbefore|].
      constructor; [exact I|constructor].
Qed.

(** A run of the loop over settled triples decides every one of them
    as [SkippedIdentical] and leaves the files as they are. *)
Lemma main_loop_all_settled evs st st' r :
  Forall (settled md5 (files (dst st))) evs ->
  main_loop md5 evs st = (st', r) ->
  r = Ok tt /\ files (dst st') = files (dst st) /\
  exists ds, decisions st' = decisions st ++ ds /\
             forallb (fun d => is_SkippedIdentical d.2) ds = true /\
             map fst ds = yielded evs.
Proof.
  revert st. induction evs as [|ev evs IH]; intros st Hall H.
  - apply pair_equal_spec in H as [<- <-]. repeat split.
    exists []. rewrite app_nil_r. auto.
  - apply Forall_cons in Hall as [Hev Hall].
    destruct ev as [root f dstpart|root f e]; cbn [main_loop] in H.
    + cbn [settled] in Hev. destruct Hev as (present & Hp & Hd & Hs & He).
      rewrite main_body_cases in H. cbv zeta in H.
      rewrite Hp, Hs, Hd, He, String.eqb_refl in H. cbn [andb] in H.
      apply IH in H as (-> & Hfiles & ds & Hds & Hskip & Hmap).
      * cbn [add_decision dst decisions] in Hfiles, Hds.
        rewrite entered_files in Hfiles. rewrite entered_decisions in Hds.
        split; [reflexivity|]. split; [exact Hfiles|].
        exists ((root, f, SkippedIdentical) :: ds).
        rewrite Hds, <- app_assoc. cbn [forallb snd is_SkippedIdentical andb map fst].
        rewrite Hmap. auto.
      * cbn [add_decision dst]. rewrite entered_files. exact Hall.
    + unfold mbind, M_bind, modify in H.
      apply (IH (add_log (CannotProcessImage root (name f) e) st)) in H;
        [exact H|exact Hall].
Qed.

(** C7, as the script has it: after a first run without a [Failed]
    decision, a second run with the same source and the destination the
    first one left decides no file as [Copied].  When the first run
    moreover made no copy under a prefixed name, the second run decides
    every file the walk hands over as [SkippedIdentical], leaves the
    files of the destination as they are and counts zero copies. *)
Theorem second_run_copies_nothing src dst0 type seed1 seed2 :
  let first := main md5 fromtimestamp src dst0 type seed1 in
  let second := main md5 fromtimestamp src (dst first) type seed2 in
  existsb (fun d => is_Failed d.2) (decisions first) = false ->
  forallb (fun d => negb (is_Copied d.2)) (decisions second) = true /\
  (if forallb (fun d => is_plain d.2) (decisions first)
   then forallb (fun d => is_SkippedIdentical d.2) (decisions second) = true /\
        map fst (decisions second) =
          yielded (walk_src_dir fromtimestamp src (default "image" type)) /\
        files (dst second) = files (dst first) /\
        cfiles second = 0%nat
   else True).
Proof.
  intros first second Hok. subst first second.
  unfold main, main_from in *.
  set (evs := walk_src_dir fromtimestamp src (default "image" type)) in *.
  destruct (main_loop md5 evs (initial dst0 seed1)) as [st1 r1] eqn:Hfirst.
  assert (Hr1 : r1 = Ok tt).
  { destruct (main_loop_decisions _ _ _ _ _ Hfirst) as (ds & Hds & _ & Hr).
    destruct r1 as [[]|e]; [reflexivity|].
    destruct Hr as (ds' & last & ->).
    cbn [add_log decisions] in Hok. rewrite Hds in Hok.
    cbn [initial decisions app] in Hok. rewrite existsb_app in Hok.
    cbn in Hok. rewrite orb_true_r in Hok. discriminate. }
  subst r1. cbn [add_log dst decisions] in *.
  destruct (main_loop md5 evs (initial (dst st1) seed2)) as [st2 r2] eqn:Hsecond.
  pose proof (main_loop_takes _ _ _ Hfirst) as Htaken.
  destruct (main_loop_all_taken evs (initial (dst st1) seed2) st2 r2 Htaken Hsecond)
    as (Hc & ds & Hds & Hnc).
  cbn [initial cfiles decisions app] in Hc, Hds.
  split.
  { destruct r2; cbn [add_log decisions]; rewrite Hds; exact Hnc. }
  destruct (forallb (fun d => is_plain d.2) (decisions st1)) eqn:Hplain; [|exact I].
  destruct (main_loop_settles _ _ _ _ [] Hfirst Hplain ltac:(constructor)) as [Hset _].
  cbn [app] in Hset.
  destruct (main_loop_all_settled evs (initial (dst st1) seed2) st2 r2 Hset Hsecond)
    as (-> & Hfiles & ds2 & Hds2 & Hskip & Hmap).
  cbn [initial dst decisions app] in Hfiles, Hds2.
  cbn [add_log dst decisions cfiles]. rewrite Hds2. auto.
Qed.

End TwoRuns.

(** ** Bucket names *)

Lemma digits_8_parts dt :
  digits_n 8 dt = true ->
  digits_n 4 (Str.take 4 dt) = true /\
  digits_n 2 (Str.take 2 (Str.drop 4 dt)) = true.
Proof.
  unfold digits_n. intros H.
  destruct dt as [|a [|b [|c [|d [|e [|f [|g [|h [|? ?]]]]]]]]];
    try discriminate H.
  cbn -[Str.is_digit] in H |- *.
  repeat (apply andb_true_iff in H as [?Hc H]).
  repeat match goal with
         | H : Str.is_digit _ = true |- _ => rewrite H; clear H
         end.
  auto.
Qed.

Lemma year_month_join a b :
  digits_n 4 a = true -> digits_n 2 b = true ->
  year_month (a +:+ "-" +:+ b) = true.
Proof.
  unfold digits_n. intros Ha Hb.
  destruct a as [|a1 [|a2 [|a3 [|a4 [|? ?]]]]]; try discriminate Ha.
  destruct b as [|b1 [|b2 [|? ?]]]; try discriminate Hb.
  cbn -[Str.is_digit] in Ha, Hb.
  repeat (apply andb_true_iff in Ha as [?Hc Ha]).
  repeat (apply andb_true_iff in Hb as [?Hc Hb]).
  unfold year_month, digits_n. cbv -[Str.is_digit].
  repeat match goal with
         | H : Str.is_digit _ = true |- _ => rewrite H; clear H
         end.
  reflexivity.
Qed.

(** The folder of a date token has the shape [YYYY-MM] and is the
    bucket of the numbers the token holds. *)
Lemma dt_folder_bucket dt :
  digits_n 8 dt = true ->
  year_month (dt_folder dt) = true /\
  dt_folder dt =
    bucketFor (Some (Str.int (Str.take 4 dt), Str.int (Str.take 2 (Str.drop 4 dt)))).
Proof.
  intros H. apply digits_8_parts in H as [H4 H2]. split.
  - apply year_month_join; assumption.
  - unfold dt_folder, bucketFor.
    rewrite (format_4_digits _ H4), (format_2_digits _ H2). reflexivity.
Qed.






(** ** The date pattern *)

Lemma char_here_spec c s r : Str.char_here c s = Some r -> s = String c r.
Proof.
  destruct s as [|c' s]; [discriminate|]. cbn [Str.char_here].
  destruct (Ascii.eqb c' c) eqn:Hc; [|discriminate].
  apply Ascii.eqb_eq in Hc as ->. intros [= ->]. reflexivity.
Qed.

Lemma digits_here_complete n g r :
  digits_n n g = true -> Str.digits_here n (g +:+ r) = Some (g, r).
Proof.
  unfold digits_n. revert g. induction n as [|n IH]; intros g H.
  - destruct g; [reflexivity|discriminate].
  - destruct g as [|c g]; [discriminate|].
    cbn [String.length Nat.eqb Str.all_digits] in H.
    apply andb_true_iff in H as [Hlen H]. apply andb_true_iff in H as [Hc Hg].
    change (String c g +:+ r) with (String c (g +:+ r)).
    cbn [Str.digits_here]. rewrite Hc, IH; [reflexivity|].
    rewrite Hlen, Hg. reflexivity.
Qed.

Lemma datere_here_sound s g :
  datere_here s = Some g ->
  exists time after,
    s = g +:+ "_" +:+ time +:+ "." +:+ after /\
    digits_n 8 g = true /\ digits_n 6 time = true.
Proof.
  unfold datere_here. intros H.
  destruct (Str.digits_here 8 s) as [[g' r1]|] eqn:Hd; [|discriminate].
  destruct (Str.char_here "_" r1) as [r2|] eqn:H1; [|discriminate].
  destruct (Str.digits_here 6 r2) as [[t r3]|] eqn:Ht; [|discriminate].
  destruct (Str.char_here "." r3) as [r4|] eqn:H2; [|discriminate].
  injection H as <-.
  apply digits_here_spec in Hd as [Hg ->], Ht as [Htime ->].
  apply char_here_spec in H1 as ->, H2 as ->.
  exists t, r4. auto.
Qed.

Lemma datere_here_complete g time after :
  digits_n 8 g = true -> digits_n 6 time = true ->
  datere_here (g +:+ "_" +:+ time +:+ "." +:+ after) = Some g.
Proof.
  intros Hg Ht. unfold datere_here.
  rewrite (digits_here_complete _ _ _ Hg).
  change ("_" +:+ time +:+ "." +:+ after)
    with (String "_" (time +:+ "." +:+ after)).
  cbn [Str.char_here Ascii.eqb Bool.eqb].
  rewrite (digits_here_complete _ _ _ Ht). reflexivity.
Qed.

(** The search finds a date exactly in the names that hold the
    pattern, and the date is a run of eight digits of the name. *)
Lemma datere_search_pattern file :
  (is_Some (datere_search file) <-> holds_date_pattern file) /\
  (forall dt, datere_search file = Some dt ->
     exists before time after,
       file = before +:+ dt +:+ "_" +:+ time +:+ "." +:+ after /\
       digits_n 8 dt = true /\ digits_n 6 time = true).
Proof.
  assert (Hsound : forall s dt, datere_search s = Some dt ->
            exists before time after,
              s = before +:+ dt +:+ "_" +:+ time +:+ "." +:+ after /\
              digits_n 8 dt = true /\ digits_n 6 time = true).
  { intros s. induction s as [|c s IH]; intros dt H.
    - discriminate.
    - cbn [datere_search] in H.
      destruct (datere_here (String c s)) as [g|] eqn:Hhere.
      + injection H as <-.
        destruct (datere_here_sound _ _ Hhere) as (t & a & Hs & Hg & Ht).
        exists "", t, a. auto.
      + destruct (IH _ H) as (b & t & a & -> & Hg & Ht).
        exists (String c b), t, a. auto. }
  split; [|apply Hsound]. split.
  - intros [dt H]. destruct (Hsound _ _ H) as (b & t & a & Hs & Hg & Ht).
    exists b, dt, t, a. auto.
  - intros (b & dt & t & a & -> & Hg & Ht).
    induction b as [|c b IH].
    + change ("" +:+ dt +:+ "_" +:+ t +:+ "." +:+ a)
        with (dt +:+ "_" +:+ t +:+ "." +:+ a).
      pose proof (datere_here_complete dt t a Hg Ht) as Hhere.
      destruct (dt +:+ "_" +:+ t +:+ "." +:+ a) as [|x rest] eqn:Hs.
      * discriminate Hhere.
      * cbn [datere_search]. rewrite Hhere. eauto.
    + change (String c b +:+ dt +:+ "_" +:+ t +:+ "." +:+ a)
        with (String c (b +:+ dt +:+ "_" +:+ t +:+ "." +:+ a)).
      cbn [datere_search].
      destruct (datere_here (String c (b +:+ dt +:+ "_" +:+ t +:+ "." +:+ a)));
        [eauto|exact IH].
Qed.

Lemma datere_here_starts s g : datere_here s = Some g -> starts_with_date s.
Proof.
  intros H. destruct (datere_here_sound _ _ H) as (t & a & -> & Hg & Ht).
  exists g, t, a. auto.
Qed.

Lemma starts_datere_here s :
  starts_with_date s -> exists g, datere_here s = Some g.
Proof.
  intros (dt & t & a & -> & Hg & Ht). exists dt.
  apply datere_here_complete; assumption.
Qed.

Lemma append_cons_inv (a b : string) c s :
  a +:+ b = String c s ->
  (a = "" /\ b = String c s) \/ exists a', a = String c a' /\ a' +:+ b = s.
Proof.
  destruct a as [|x a]; [left; auto|].
  change (String x a +:+ b) with (String x (a +:+ b)).
  intros [= -> <-]. right. eauto.
Qed.

(** The search returns the date token of the first place where the
    pattern starts. *)
Lemma datere_search_first file dt :
  datere_search file = Some dt -> first_date_token file dt.
Proof.
  revert dt. induction file as [|c s IH]; intros dt H.
  - discriminate.
  - cbn [datere_search] in H.
    destruct (datere_here (String c s)) as [g|] eqn:Hhere.
    + injection H as <-.
      destruct (datere_here_sound _ _ Hhere) as (t & a & Hs & Hg & Ht).
      exists "", t, a. repeat split; auto.
      intros sk later Hb Hl. destruct sk; [|discriminate].
      destruct (Hl (eq_sym Hb)).
    + destruct (IH _ H) as (b & t & a & -> & Hg & Ht & Hfirst).
      exists (String c b), t, a. repeat split; auto.
      intros sk later Hb Hl Hstart. symmetry in Hb.
      apply append_cons_inv in Hb as [[-> ->]|(sk' & -> & Hb)].
      * apply starts_datere_here in Hstart as [g Hg'].
        change (String c b +:+ dt +:+ "_" +:+ t +:+ "." +:+ a)
          with (String c (b +:+ dt +:+ "_" +:+ t +:+ "." +:+ a)) in Hg'.
        congruence.
      * apply (Hfirst sk' later); auto.
Qed.

Lemma first_token_search file dt :
  first_date_token file dt -> datere_search file = Some dt.
Proof.
  intros (b & t & a & -> & Hg & Ht & Hfirst).
  induction b as [|c b IH].
  - change ("" +:+ dt +:+ "_" +:+ t +:+ "." +:+ a)
      with (dt +:+ "_" +:+ t +:+ "." +:+ a).
    pose proof (datere_here_complete dt t a Hg Ht) as Hhere.
    destruct (dt +:+ "_" +:+ t +:+ "." +:+ a) as [|x rest] eqn:Hs.
    + discriminate Hhere.
    + cbn [datere_search]. rewrite Hhere. reflexivity.
  - change (String c b +:+ dt +:+ "_" +:+ t +:+ "." +:+ a)
      with (String c (b +:+ dt +:+ "_" +:+ t +:+ "." +:+ a)).
    cbn [datere_search].
    destruct (datere_here (String c (b +:+ dt +:+ "_" +:+ t +:+ "." +:+ a)))
      as [g|] eqn:Hhere.
    + exfalso. apply datere_here_starts in Hhere.
      apply (Hfirst "" (String c b)); [reflexivity|discriminate|exact Hhere].
    + apply IH. intros sk later -> Hl.
      apply (Hfirst (String c sk) later); [reflexivity|exact Hl].
Qed.

Lemma datere_search_none file :
  datere_search file = None -> ~ holds_date_pattern file.
Proof.
  intros H Hp. apply (proj1 (datere_search_pattern file)) in Hp as [dt Hdt].
  congruence.
Qed.


(** The folder of a date token is the bucket of the year and month it
    spells. *)
Lemma token_folder file dt :
  first_date_token file dt ->
  dt_folder dt = bucketFor (Some (token_date dt)) /\
  year_month (dt_folder dt) = true.
Proof.
  intros (b & t & a & _ & Hg & _). apply dt_folder_bucket in Hg as [Hym Hb].
  split; [exact Hb|exact Hym].
Qed.

(** ** Timestamps and colons *)

Lemma digit_not_colon c : Str.is_digit c = true -> Ascii.eqb c ":" = false.
Proof.
  intros H. apply Ascii.eqb_neq. intros ->. discriminate H.
Qed.

Lemma partition_digits y rest :
  Str.all_digits y = true ->
  Str.partition ":" (y +:+ String ":" rest) = Some (y, rest).
Proof.
  induction y as [|c y IH]; intros H.
  - reflexivity.
  - cbn [Str.all_digits] in H. apply andb_true_iff in H as [Hc H].
    change (String c y +:+ String ":" rest) with (String c (y +:+ String ":" rest)).
    cbn [Str.partition].
    rewrite (digit_not_colon _ Hc), (IH H). reflexivity.
Qed.

(** A timestamp that reads as [YYYY:MM:...] gives the bucket of its
    year and month. *)
Lemma exif_folder_digits y m rest :
  digits_n 4 y = true -> digits_n 2 m = true ->
  exif_folder (y +:+ ":" +:+ m +:+ ":" +:+ rest) =
    Ok (bucketFor (Some (Str.int y, Str.int m))).
Proof.
  intros Hy Hm. unfold exif_folder. cbn [Str.split].
  pose proof Hy as Hy'. pose proof Hm as Hm'.
  unfold digits_n in Hy', Hm'.
  apply andb_true_iff in Hy' as [_ Hy'], Hm' as [_ Hm'].
  change (":" +:+ m +:+ ":" +:+ rest) with (String ":" (m +:+ String ":" rest)).
  rewrite (partition_digits _ _ Hy'), (partition_digits _ _ Hm').
  unfold bucketFor. rewrite (format_4_digits _ Hy), (format_2_digits _ Hm).
  reflexivity.
Qed.

Lemma truthy_lookup (d : gmap string string) key v :
  d !! key = Some v -> truthy d = true /\ contains d key = true.
Proof.
  intros H. unfold truthy, contains. split.
  - rewrite bool_decide_eq_false_2; [reflexivity|].
    intros ->. rewrite lookup_empty in H. discriminate.
  - apply bool_decide_eq_true_2. eauto.
Qed.

Lemma contains_absent (d : gmap string string) key :
  d !! key = None -> contains d key = false.
Proof.
  intros H. unfold contains. apply bool_decide_eq_false_2.
  rewrite H. intros [? ?]. discriminate.
Qed.

Lemma partition_none sep s :
  Str.partition sep s = None <-> count_char sep s = 0%nat.
Proof.
  induction s as [|c s IH]; cbn [Str.partition count_char]; [tauto|].
  destruct (Ascii.eqb c sep).
  - split; [discriminate|cbn; lia].
  - destruct (Str.partition sep s) as [[a b]|].
    + split; [discriminate|]. intros H. cbn in H. apply IH in H. discriminate.
    + split; [|reflexivity]. intros _. cbn. apply IH. reflexivity.
Qed.

Lemma partition_some sep s a b :
  Str.partition sep s = Some (a, b) ->
  s = a +:+ String sep b /\
  count_char sep a = 0%nat /\
  count_char sep s = S (count_char sep b).
Proof.
  revert a. induction s as [|c s IH]; intros a H; [discriminate|].
  cbn [Str.partition] in H. cbn [count_char].
  destruct (Ascii.eqb c sep) eqn:Hc.
  - injection H as <- <-. apply Ascii.eqb_eq in Hc as ->. auto.
  - destruct (Str.partition sep s) as [[a' b']|]; [|discriminate].
    injection H as <- <-. destruct (IH a' eq_refl) as (-> & Ha & Hs).
    cbn [count_char]. rewrite Hc, Ha, Hs. auto.
Qed.

(** The folder of a timestamp, by its colons. *)
Lemma exif_folder_colons value :
  if (count_char ":" value <? 2)%nat
  then exif_folder value = Raise ValueError
  else exists y m rest,
         value = y +:+ ":" +:+ m +:+ ":" +:+ rest /\
         count_char ":" y = 0%nat /\ count_char ":" m = 0%nat /\
         exif_folder value = Ok (y +:+ "-" +:+ m).
Proof.
  unfold exif_folder. cbn [Str.split].
  destruct (Str.partition ":" value) as [[y r]|] eqn:H1.
  - apply partition_some in H1 as (-> & Hy & Hc). rewrite Hc.
    destruct (Str.partition ":" r) as [[m rest]|] eqn:H2.
    + apply partition_some in H2 as (-> & Hm & Hc2). rewrite Hc2.
      cbn [Nat.ltb Nat.leb]. exists y, m, rest. auto.
    + apply partition_none in H2. rewrite H2. reflexivity.
  - apply partition_none in H1. rewrite H1. reflexivity.
Qed.

Lemma infer_image_by_lookup f :
  infer_image_dest_folder f =
    match read_exif f with
    | Raise e => Raise e
    | Ok d =>
        match d !! "Exif.Image.DateTime" with
        | Some primary => exif_folder primary
        | None =>
            match d !! "Exif.Photo.DateTimeOriginal" with
            | Some original => exif_folder original
            | None =>
                match datere_search (name f) with
                | Some dt => Ok (dt_folder dt)
                | None => Ok "unknown"
                end
            end
        end
    end.
Proof.
  unfold infer_image_dest_folder.
  destruct (read_exif f) as [d|e]; [|reflexivity].
  destruct (d !! "Exif.Image.DateTime") as [v1|] eqn:H1.
  - destruct (truthy_lookup _ _ _ H1) as [-> ->]. reflexivity.
  - rewrite (contains_absent _ _ H1), andb_false_r.
    destruct (d !! "Exif.Photo.DateTimeOriginal") as [v2|] eqn:H2.
    + destruct (truthy_lookup _ _ _ H2) as [-> ->]. reflexivity.
    + rewrite (contains_absent _ _ H2), andb_false_r. reflexivity.
Qed.

Lemma exif_folder_short value :
  length (Str.split ":" 2 value) <> 3%nat -> exif_folder value = Raise ValueError.
Proof.
  unfold exif_folder.
  destruct (Str.split ":" 2 value) as [|y [|m [|r [|? ?]]]]; cbn [length];
    intros H; try reflexivity.
  contradiction H. reflexivity.
Qed.

Lemma exif_failure_raises f e :
  exif_failure f = Some e -> infer_image_dest_folder f = Raise e.
Proof.
  unfold exif_failure, infer_image_dest_folder, exif_timestamp.
  destruct (read_exif f) as [d|e']; [|intros [= ->]; reflexivity].
  assert (Hcase : forall key,
            match d !! key with
            | Some v => if (length (Str.split ":" 2 v) =? 3)%nat
                        then None else Some ValueError
            | None => None
            end = Some e ->
            exif_folder (default "" (d !! key)) = Raise e).
  { intros key H. destruct (d !! key) as [v|]; [|discriminate].
    destruct (length (Str.split ":" 2 v) =? 3)%nat eqn:Hlen; [discriminate|].
    injection H as <-. apply Nat.eqb_neq in Hlen.
    apply exif_folder_short, Hlen. }
  destruct (truthy d && contains d "Exif.Image.DateTime"); [apply Hcase|].
  destruct (truthy d && contains d "Exif.Photo.DateTimeOriginal"); [apply Hcase|].
  discriminate.
Qed.


(** The image inference, by the timestamp it reads. *)
Lemma infer_image_selected f d :
  read_exif f = Ok d ->
  infer_image_dest_folder f =
    match selected_timestamp d with
    | Some value => exif_folder value
    | None =>
        match datere_search (name f) with
        | Some dt => Ok (dt_folder dt)
        | None => Ok "unknown"
        end
    end.
Proof.
  intros Hd. rewrite infer_image_by_lookup, Hd. unfold selected_timestamp.
  destruct (d !! "Exif.Image.DateTime"); reflexivity.
Qed.

(** The file-name tier of the image inference. *)
Lemma image_name_tier f d :
  read_exif f = Ok d -> selected_timestamp d = None ->
  (forall dt, first_date_token (name f) dt ->
     infer_image_dest_folder f = Ok (bucketFor (Some (token_date dt)))) /\
  (~ holds_date_pattern (name f) ->
     infer_image_dest_folder f = Ok (bucketFor None)).
Proof.
  intros Hd Hnone. rewrite (infer_image_selected _ _ Hd), Hnone. split.
  - intros dt Hdt. rewrite (first_token_search _ _ Hdt).
    apply token_folder in Hdt as [-> _]. reflexivity.
  - intros Hno.
    destruct (datere_search (name f)) as [dt|] eqn:Hs; [|reflexivity].
    contradiction Hno. apply (proj1 (datere_search_pattern (name f))). eauto.
Qed.
(** ** Video files *)

Lemma main_body_Copied_path md5 srcdir f dstpart st st' p :
  main_body md5 srcdir f dstpart st = (st', Ok (Copied p)) ->
  p = (dstpart, name f).
Proof.
  intros H. apply main_body_outcome in H.
  inversion H; subst; reflexivity.
Qed.

(** A decision [Copied] of the loop is the one of a file the walk
    handed over, and its path is the folder of the walk with the name
    of the file. *)
Lemma main_loop_Copied md5 evs st st' r root f p :
  main_loop md5 evs st = (st', r) ->
  In (root, f, Copied p) (decisions st') ->
  In (root, f, Copied p) (decisions st) \/
  exists dstpart, In (Yield root f dstpart) evs /\ p = (dstpart, name f).
Proof.
  revert st. induction evs as [|ev evs IH]; intros st H Hin.
  - apply pair_equal_spec in H as [<- _]. auto.
  - destruct ev as [root' f' dstpart|root' f' e]; cbn [main_loop] in H.
    + destruct (main_body md5 root' f' dstpart st) as [st1 [d|e]] eqn:Hbody.
      * pose proof (main_body_decisions _ _ _ _ _ _ _ Hbody) as Hds.
        apply IH in H; [|exact Hin].
        destruct H as [H|(dp & Hev & ->)].
        -- cbn [add_decision decisions] in H. rewrite Hds in H.
           apply in_app_or in H as [H|[H|[]]]; [auto|].
           injection H as -> -> ->. right. exists dstpart.
           split; [left; reflexivity|].
           eapply main_body_Copied_path, Hbody.
        -- right. exists dp. split; [right; exact Hev|reflexivity].
      * pose proof (main_body_decisions _ _ _ _ _ _ _ Hbody) as Hds.
        apply pair_equal_spec in H as [<- _].
        cbn [add_decision decisions] in Hin. rewrite Hds in Hin.
        apply in_app_or in Hin as [Hin|[Hin|[]]]; [auto|discriminate Hin].
    + unfold mbind, M_bind, modify in H.
      apply (IH (add_log (CannotProcessImage root' f'.(name) e) st)) in H;
        [|exact Hin].
      destruct H as [H|(dp & Hev & ->)]; [auto|].
      right. exists dp. split; [right; exact Hev|reflexivity].
Qed.

(** Without a [Failed] decision among them, the last decision is not
    a failure. *)
Lemma last_not_Failed (ds : list (string * media * CopyDecision)) :
  existsb (fun d => is_Failed d.2) ds = false ->
  match last ds with
  | Some (_, Failed e) => [FailedRun e]
  | _ => []
  end = [].
Proof.
  intros H. destruct (last ds) as [[[root f] d]|] eqn:Hlast; [|reflexivity].
  apply last_Some in Hlast as [ds' ->].
  rewrite existsb_app in H. apply orb_false_iff in H as [_ H].
  cbn in H. destruct d; try reflexivity. discriminate H.
Qed.

Section Video.

Variable fromtimestamp : Z -> result date.




(** The events of a video walk are those of the files with a video
    extension, with the outcome of the video inference. *)
Lemma video_events_In root f folder src :
  In (Yield root f folder) (video_events fromtimestamp src) ->
  infer_video_dest_folder fromtimestamp f = Ok folder.
Proof.
  unfold video_events. intros H.
  apply in_flat_map in H as ([r fs] & _ & H).
  apply in_flat_map in H as (g & _ & H). cbn [fst] in H.
  destruct (Str.endswith_any (Str.lower (name g)) [".mts"; ".mp4"; ".avi"]);
    [|destruct H].
  destruct (infer_video_dest_folder fromtimestamp g) as [dstdir|e] eqn:Hg;
    destruct H as [H|[]]; [|discriminate H].
  injection H as <- <- <-. exact Hg.
Qed.

Lemma walk_other_type src type :
  type <> "image" ->
  walk_src_dir fromtimestamp src type = video_events fromtimestamp src.
Proof.
  intros Hne. apply String.eqb_neq in Hne.
  unfold walk_src_dir, video_events. apply flat_map_ext. intros [root fs].
  unfold walk_dir. apply flat_map_ext. intros f.
  unfold walk_file, candidate, ext_list, infer_dest_folder. rewrite Hne.
  reflexivity.
Qed.

(** C10: with a [--type] other than ["image"], whatever its text, the
    walk is the walk of the video files: the files whose lower-case
    name ends in [.mts], [.mp4] or [.avi], each with the folder of the
    video inference.  The run is not refused: it decides the files
    this walk hands over, in order, all of them unless a placement
    fails; a file it copies goes to the folder of the video inference;
    and its log holds the error records of the walk, the error record
    of a failed placement, and the summary. *)
Theorem other_type_runs_as_video (md5 : string -> string) (type : string)
    (src : tree) (dst0 : dest) (seed : list nat) :
  type <> "image" ->
  let events := video_events fromtimestamp src in
  let final := main md5 fromtimestamp src dst0 (Some type) seed in
  walk_src_dir fromtimestamp src type = events /\
  (exists consumed rest,
     events = consumed ++ rest /\
     map fst (decisions final) = yielded consumed /\
     (existsb (fun d => is_Failed d.2) (decisions final) = false -> rest = []) /\
     log final =
       error_records consumed
       ++ match last (decisions final) with
          | Some (_, Failed e) => [FailedRun e]
          | _ => []
          end
       ++ [FilesFound (nfiles final); FilesCopied (cfiles final)]) /\
  (forall root f p,
     In (root, f, Copied p) (decisions final) ->
     infer_video_dest_folder fromtimestamp f = Ok (fst p) /\ snd p = name f).
Proof.
  intros Hne events final.
  pose proof (walk_other_type src type Hne) as Hwalk. fold events in Hwalk.
  split; [exact Hwalk|].
  destruct (main_final md5 fromtimestamp src dst0 (Some type) seed)
    as (st & r & Hloop & _ & Hd & Hn & Hc & _ & Hlog).
  change (default "image" (Some type)) with type in Hloop.
  rewrite Hwalk in Hloop. fold final in Hd, Hn, Hc, Hlog.
  cbv zeta in Hd, Hn, Hc, Hlog. rewrite Hd, Hn, Hc, Hlog. split.
  - destruct (main_loop_consumed _ _ _ _ _ Hloop)
      as (consumed & rest & ds & Hev & Hds & Hmap & Hl & Hr).
    cbn [initial decisions log app] in Hds, Hl.
    exists consumed, rest. rewrite Hds, Hl.
    split; [exact Hev|]. split; [exact Hmap|].
    destruct r as [[]|e].
    + destruct Hr as [-> Hok]. split; [reflexivity|].
      rewrite (last_not_Failed _ Hok). reflexivity.
    + destruct Hr as (before & root & f & dstpart & ds' & -> & -> & Hok).
      split.
      * rewrite existsb_app. cbn [existsb is_Failed snd orb].
        rewrite orb_true_r. discriminate.
      * rewrite last_snoc. reflexivity.
  - intros root f p Hin.
    destruct (main_loop_Copied _ _ _ _ _ _ _ _ Hloop Hin) as [[]|(dp & Hev & ->)].
    split; [|reflexivity]. eapply video_events_In, Hev.
Qed.

End Video.
(** ** The EXIF tier *)

Section Buckets.

Variable fromtimestamp : Z -> result date.

(** C9, as the script has it: [bucketFor] gives ["2023-07"] for July
    2023 and ["unknown"] for no date.  A folder the video inference
    returns is the bucket ["{year:04d}-{month:02d}"] of the first date
    token of the name or, for a name without the pattern, of the
    modification time.  The image inference reads one timestamp, the
    primary one when the dictionary has it, else the original one:
    when it starts with a four-digit year, a colon, a two-digit month
    and a colon, the folder is the bucket of that year and month; in
    general, with two colons or more, the folder is the text before
    the first colon and the text between the first two, joined by a
    dash as they are, and with fewer the inference raises.  Without a
    timestamp, the folder is the bucket of the first date token of the
    name, and ["unknown"] for a name without the pattern. *)
Theorem folder_is_the_bucket (f : media) :
  bucketFor (Some (2023, 7)) = "2023-07" /\
  bucketFor None = "unknown" /\
  (forall folder,
     infer_video_dest_folder fromtimestamp f = Ok folder ->
     (exists dt, first_date_token (name f) dt /\
                 folder = bucketFor (Some (token_date dt))) \/
     (~ holds_date_pattern (name f) /\
      exists mtime d,
        os_stat f = Ok mtime /\ fromtimestamp mtime = Ok d /\
        folder = bucketFor (Some (year d, month d)))) /\
  (forall d,
     read_exif f = Ok d ->
     match selected_timestamp d with
     | Some value =>
         (forall y m rest,
            digits_n 4 y = true -> digits_n 2 m = true ->
            value = y +:+ ":" +:+ m +:+ ":" +:+ rest ->
            infer_image_dest_folder f =
              Ok (bucketFor (Some (Str.int y, Str.int m)))) /\
         (if (count_char ":" value <? 2)%nat
          then infer_image_dest_folder f = Raise ValueError
          else exists y m rest,
                 value = y +:+ ":" +:+ m +:+ ":" +:+ rest /\
                 count_char ":" y = 0%nat /\ count_char ":" m = 0%nat /\
                 infer_image_dest_folder f = Ok (y +:+ "-" +:+ m))
     | None =>
         (forall dt, first_date_token (name f) dt ->
            infer_image_dest_folder f = Ok (bucketFor (Some (token_date dt)))) /\
         (~ holds_date_pattern (name f) ->
            infer_image_dest_folder f = Ok (bucketFor None))
     end).
Proof.
  split; [reflexivity|]. split; [reflexivity|]. split.
  - intros folder. unfold infer_video_dest_folder.
    destruct (datere_search (name f)) as [dt|] eqn:Hs.
    + intros [= <-]. left. exists dt.
      apply datere_search_first in Hs. split; [exact Hs|].
      apply token_folder in Hs as [-> _]. reflexivity.
    + destruct (os_stat f) as [mtime|e]; [|discriminate].
      destruct (fromtimestamp mtime) as [d|e] eqn:Hd; [|discriminate].
      intros [= <-]. right. split; [apply datere_search_none, Hs|].
      exists mtime, d. auto.
  - intros d Hd.
    destruct (selected_timestamp d) as [value|] eqn:Hsel.
    + rewrite (infer_image_selected _ _ Hd), Hsel. split.
      * intros y m rest Hy Hm ->. apply exif_folder_digits; assumption.
      * apply exif_folder_colons.
    + apply (image_name_tier f d Hd Hsel).
Qed.

End Buckets.

Section Skipping.

Variable md5 : string -> string.
Variable fromtimestamp : Z -> result date.

(** C2, as the script has it: when reading the EXIF data of an image
    raises, or its timestamp does not split into three parts at the
    colons, the inference raises too and no fallback is tried.  The walk
    catches the exception: it logs the file, hands nothing over for it
    and goes on with the files that follow, and the loop of [main] goes
    on after the log record.  For an image whose EXIF data can be
    read, the timestamp decides alone when there is one, the primary
    one before the original one: with fewer than two colons the
    inference raises, otherwise the folder is made of its first two
    fields.  The file-name tier is reached only without a timestamp. *)
Theorem exif_failure_skips_the_file root f e before after rest st :
  candidate "image" f = true ->
  exif_failure f = Some e ->
  infer_image_dest_folder f = Raise e /\
  walk_dir fromtimestamp "image" (root, before ++ f :: after) =
    walk_dir fromtimestamp "image" (root, before)
    ++ CannotProcess root f e :: walk_dir fromtimestamp "image" (root, after) /\
  main_loop md5 (CannotProcess root f e :: rest) st =
    main_loop md5 rest (add_log (CannotProcessImage root (name f) e) st) /\
  (forall g d,
     read_exif g = Ok d ->
     match selected_timestamp d with
     | Some value =>
         if (count_char ":" value <? 2)%nat
         then infer_image_dest_folder g = Raise ValueError
         else exists y m rest,
                value = y +:+ ":" +:+ m +:+ ":" +:+ rest /\
                count_char ":" y = 0%nat /\ count_char ":" m = 0%nat /\
                infer_image_dest_folder g = Ok (y +:+ "-" +:+ m)
     | None =>
         (forall dt, first_date_token (name g) dt ->
            infer_image_dest_folder g = Ok (bucketFor (Some (token_date dt)))) /\
         (~ holds_date_pattern (name g) ->
            infer_image_dest_folder g = Ok "unknown")
     end).
Proof.
  intros Hcand Hfail. pose proof (exif_failure_raises _ _ Hfail) as Hraise.
  split; [exact Hraise|]. split; [|split].
  - unfold walk_dir. cbn [fst snd]. rewrite flat_map_app. cbn [flat_map].
    f_equal. unfold walk_file at 1. rewrite Hcand.
    unfold infer_dest_folder. cbn [String.eqb Ascii.eqb Bool.eqb].
    rewrite Hraise. reflexivity.
  - reflexivity.
  - intros g d Hd.
    destruct (selected_timestamp d) as [value|] eqn:Hsel.
    + rewrite (infer_image_selected _ _ Hd), Hsel. apply exif_folder_colons.
    + apply (image_name_tier g d Hd Hsel).
Qed.

End Skipping.
(** ** The script on concrete trees *)

(** C6: the summary counts a copy under a prefixed name as found but
    not as copied.  The destination holds [2023-01/20230101_100000.jpg]
    with other bytes than the source file of that name: the run writes
    the source file as [2023-01/abcde-20230101_100000.jpg] and reports
    one file found and zero files copied. *)
Theorem suffixed_copy_is_not_counted :
  let final := main bytes_digest utc recount_src recount_dest None [0; 1; 2; 3; 4]%nat in
  log final = [FilesFound 1; FilesCopied 0] /\
  map snd (decisions final) =
    [CopiedWithSuffix ("2023-01", "abcde-20230101_100000.jpg") "abcde"] /\
  files recount_dest !! ("2023-01", "abcde-20230101_100000.jpg") = None /\
  files (dst final) !! ("2023-01", "abcde-20230101_100000.jpg") =
    Some (plain "new bytes").
Proof. vm_compute. repeat split; reflexivity. Qed.

(** The end-to-end scenario: two buckets with one file each, two files
    found and two copied. *)
Example scenario_run :
  let final := main bytes_digest utc scenario_src empty_dest (Some "image") [] in
  map_to_list (files (dst final)) =
    [("2022-12", "IMG_0099.png", plain "png");
     ("2023-01", "20230101_100000.jpg", plain "jpeg")] /\
  log final = [FilesFound 2; FilesCopied 2].
Proof. vm_compute. split; reflexivity. Qed.

Example extension_filter :
  candidate "image" (bare "photo.TIFF" "t") = false /\
  candidate "image" (bare "photo.JPG" "j") = true /\
  candidate "video" (bare "photo.JPG" "j") = false.
Proof. vm_compute. repeat split; reflexivity. Qed.


(** C2 fails on the script: for an image whose name holds a date, an
    EXIF reader that raises, or a timestamp without colons, makes the
    inference raise, although the name alone gives [2023-07]; the walk
    hands over neither file. *)
Lemma exif_failure_is_not_absent_metadata :
  infer_image_dest_folder unreadable_photo = Raise RuntimeError /\
  infer_image_dest_folder garbled_photo = Raise ValueError /\
  infer_image_dest_folder (bare "20230715_142233.jpg" "jpeg") = Ok "2023-07" /\
  yielded (walk_src_dir utc [("a", [unreadable_photo; garbled_photo])] "image") = [].
Proof. vm_compute. repeat split; reflexivity. Qed.


(** C7 fails on the script: with two source files of one name and
    different bytes in one bucket, the second run finds the second file
    different from the one at its path and copies it again, under a new
    prefix. *)
Lemma second_run_copies_again :
  let first := main bytes_digest utc twin_src empty_dest None [0; 1; 2; 3; 4]%nat in
  let second := main bytes_digest utc twin_src (dst first) None [5; 6; 7; 8; 9]%nat in
  map snd (decisions first) =
    [Copied ("unknown", "x.jpg");
     CopiedWithSuffix ("unknown", "abcde-x.jpg") "abcde"] /\
  map snd (decisions second) =
    [SkippedIdentical; CopiedWithSuffix ("unknown", "fghij-x.jpg") "fghij"] /\
  files (dst first) !! ("unknown", "fghij-x.jpg") = None /\
  files (dst second) !! ("unknown", "fghij-x.jpg") = Some (plain "BBB").
Proof. vm_compute. repeat split; reflexivity. Qed.

(** C9 fails on the script: the image inference joins the first two
    fields of the timestamp as they are.  A one-digit month is not
    padded, and a blank timestamp gives a folder of blanks, neither the
    bucket of a date nor ["unknown"]. *)
Lemma exif_month_is_not_padded :
  infer_image_dest_folder short_month_photo = Ok "2023-7" /\
  bucketFor (Some (2023, 7)) = "2023-07" /\
  infer_image_dest_folder blank_date_photo = Ok "    -  " /\
  year_month "    -  " = false.
Proof. vm_compute. repeat split; reflexivity. Qed.



(** A copy that fails after it created its target: on a full disk the
    run ends with the first file, which is left empty at its path and
    is not counted as copied. *)
Example full_disk_run :
  let final := main bytes_digest utc scenario_src full_dest (Some "image") [] in
  map snd (decisions final) = [Failed OSError] /\
  map_to_list (files (dst final)) =
    [("2023-01", "20230101_100000.jpg", plain "")] /\
  log final = [FailedRun OSError; FilesFound 1; FilesCopied 0].
Proof. vm_compute. repeat split; reflexivity. Qed.

(** A copy under a prefixed name that breaks off: the prefix is drawn,
    the file that was at the prefixed path is lost to the residue of
    the copy, and the decision is [Failed]. *)
Example broken_prefixed_copy :
  let final := main bytes_digest utc [("b", [bare "x.jpg" "BBB"])] crowded_dest
                 None [0; 1; 2; 3; 4; 5]%nat in
  files crowded_dest !! ("unknown", "abcde-x.jpg") = Some (plain "old") /\
  files (dst final) !! ("unknown", "abcde-x.jpg") = Some (plain "") /\
  files (dst final) !! ("unknown", "x.jpg") = Some (plain "AAA") /\
  map snd (decisions final) = [Failed OSError] /\
  random_state final = [5%nat].
Proof. vm_compute. repeat split; reflexivity. Qed.
(** ** The theorems at concrete inputs *)


Lemma exif_failure_skips_the_file_witness :
  infer_image_dest_folder unreadable_photo = Raise RuntimeError /\
  walk_dir utc "image" ("a", [] ++ unreadable_photo :: [garbled_photo]) =
    walk_dir utc "image" ("a", [])
    ++ CannotProcess "a" unreadable_photo RuntimeError
       :: walk_dir utc "image" ("a", [garbled_photo]).
Proof.
  destruct (exif_failure_skips_the_file bytes_digest utc "a" unreadable_photo
              RuntimeError [] [garbled_photo] [] (initial empty_dest []))
    as (H1 & H2 & _).
  - vm_compute; reflexivity.
  - vm_compute; reflexivity.
  - split; [exact H1|exact H2].
Defined.

Lemma existing_destination_file_is_kept_witness :
  let st := initial one_file_dest [0; 1; 2; 3; 4]%nat in
  let f := bare "x.jpg" "BBB" in
  let run := main_body bytes_digest "b" f "unknown" st in
  files (dst st) !! ("unknown", "x.jpg") = Some (plain "AAA") /\
  files (dst (fst run)) !! ("unknown", "x.jpg") = Some (plain "AAA") /\
  snd run = Ok (CopiedWithSuffix ("unknown", "abcde-x.jpg") "abcde").
Proof.
  intros st f run.
  assert (Hpresent : files (dst st) !! ("unknown", name f) = Some (plain "AAA"))
    by (vm_compute; reflexivity).
  assert (Hrun : main_body bytes_digest "b" f "unknown" st = (fst run, snd run))
    by (vm_compute; reflexivity).
  destruct (existing_destination_file_is_kept bytes_digest "b" f "unknown" st
              (plain "AAA") (fst run) (snd run) Hpresent Hrun) as [Hkept _].
  split; [exact Hpresent|]. split; [exact Hkept|]. vm_compute; reflexivity.
Defined.

Lemma collision_skips_or_copies_with_prefix_witness :
  let st := initial one_file_dest [10; 37; 2; 35; 4]%nat in
  let f := bare "x.jpg" "BBB" in
  let run := main_body bytes_digest "b" f "unknown" st in
  files (dst (fst run)) !! ("unknown", "x.jpg") = Some (plain "AAA") /\
  exists prefix,
    String.length prefix = 5%nat /\
    all_lower_alnum prefix = true /\
    (forall i, (i < 5)%nat ->
       String.get i prefix =
         String.get (List.nth i [10; 37; 2; 35; 4]%nat 0%nat mod 36) letters) /\
    random_state (fst run) = [] /\
    snd run = Ok (CopiedWithSuffix ("unknown", prefix +:+ "-" +:+ "x.jpg") prefix) /\
    files (dst (fst run)) =
      <[("unknown", prefix +:+ "-" +:+ "x.jpg") := plain "BBB"]> (files (dst st)).
Proof.
  intros st f run.
  assert (Hpresent : files (dst st) !! ("unknown", name f) = Some (plain "AAA"))
    by (vm_compute; reflexivity).
  assert (Hrun : main_body bytes_digest "b" f "unknown" st = (fst run, snd run))
    by (vm_compute; reflexivity).
  destruct (collision_skips_or_copies_with_prefix bytes_digest "b" f "unknown" st
              (plain "AAA") (fst run) (snd run) Hpresent eq_refl eq_refl Hrun)
    as [Hkept (prefix & Hlen & Hal & Hget & Hrs & Hr & Hfiles)].
  split; [exact Hkept|].
  exists prefix. repeat split; assumption.
Defined.

Lemma second_run_copies_nothing_witness :
  let first := main bytes_digest utc scenario_src empty_dest None [] in
  let second := main bytes_digest utc scenario_src (dst first) None [] in
  existsb (fun d => is_Failed d.2) (decisions first) = false /\
  forallb (fun d => negb (is_Copied d.2)) (decisions second) = true /\
  forallb (fun d => is_SkippedIdentical d.2) (decisions second) = true /\
  files (dst second) = files (dst first) /\
  cfiles second = 0%nat.
Proof.
  intros first second.
  assert (Hok : existsb (fun d => is_Failed d.2) (decisions first) = false)
    by (vm_compute; reflexivity).
  destruct (second_run_copies_nothing bytes_digest utc scenario_src empty_dest
              None [] [] Hok) as (Hnone & Hplain).
  fold first in Hplain.
  replace (forallb (fun d => is_plain d.2) (decisions first)) with true in Hplain
    by (vm_compute; reflexivity).
  destruct Hplain as (Hskip & _ & Hfiles & Hc).
  split; [exact Hok|]. split; [exact Hnone|]. split; [exact Hskip|].
  split; [exact Hfiles|exact Hc].
Defined.


Lemma folder_is_the_bucket_witness :
  infer_image_dest_folder dated_photo = Ok "2022-12".
Proof.
  destruct (folder_is_the_bucket utc dated_photo) as (_ & _ & _ & H).
  specialize (H _ eq_refl).
  replace (selected_timestamp {[ "Exif.Image.DateTime" := "2022:12:24 10:11:12" ]})
    with (Some "2022:12:24 10:11:12") in H by (vm_compute; reflexivity).
  destruct H as [H _].
  exact (H "2022" "12" "24 10:11:12" eq_refl eq_refl eq_refl).
Defined.

Lemma other_type_runs_as_video_witness :
  let final := main bytes_digest utc movie_src empty_dest (Some "IMAGE") [] in
  "IMAGE" <> "image" /\
  walk_src_dir utc movie_src "IMAGE" =
    [Yield "a" (clip "20230102_100000.MP4" (plain "two")) "2023-01";
     Yield "b" holiday_clip "2023-07"] /\
  forall root f p,
    In (root, f, Copied p) (decisions final) ->
    infer_video_dest_folder utc f = Ok (fst p) /\ snd p = name f.
Proof.
  intros final.
  assert (Hne : "IMAGE" <> "image") by discriminate.
  split; [exact Hne|].
  destruct (other_type_runs_as_video utc bytes_digest "IMAGE" movie_src
              empty_dest [] Hne) as (Hwalk & _ & Hcopied).
  split; [exact Hwalk|exact Hcopied].
Defined.
(** * Further properties *)

(** ** Reading in chunks *)

Lemma take_drop n s : Str.take n s +:+ Str.drop n s = s.
Proof.
  revert s. induction n as [|n IH]; intros s; [reflexivity|].
  destruct s as [|c s]; [reflexivity|].
  cbn [Str.take Str.drop].
  change (String c (Str.take n s) +:+ Str.drop n s)
    with (String c (Str.take n s +:+ Str.drop n s)).
  rewrite IH. reflexivity.
Qed.

Lemma length_take n s : (String.length (Str.take n s) <= n)%nat.
Proof.
  revert s. induction n as [|n IH]; intros s; [cbn; lia|].
  destruct s as [|c s]; cbn [Str.take String.length]; [lia|].
  specialize (IH s). lia.
Qed.

Lemma length_drop n s :
  String.length (Str.drop n s) = (String.length s - n)%nat.
Proof.
  revert s. induction n as [|n IH]; intros s; [cbn; lia|].
  destruct s as [|c s]; cbn [Str.drop String.length]; [reflexivity|].
  apply IH.
Qed.

Lemma take_empty n s : Str.take (S n) s = "" -> s = "".
Proof. destruct s; [reflexivity|discriminate]. Qed.

Lemma append_empty_r s : s +:+ "" = s.
Proof.
  induction s as [|c s IH]; [reflexivity|].
  change (String c s +:+ "") with (String c (s +:+ "")). rewrite IH. reflexivity.
Qed.

Lemma append_assoc (a b c : string) : (a +:+ b) +:+ c = a +:+ b +:+ c.
Proof.
  induction a as [|x a IH]; [reflexivity|].
  change (String x (a +:+ b) +:+ c = String x (a +:+ b +:+ c)).
  change (String x ((a +:+ b) +:+ c) = String x (a +:+ b +:+ c)).
  rewrite IH. reflexivity.
Qed.

Lemma iter_read_chunks size fuel bytes :
  (0 < size)%nat ->
  (String.length bytes < fuel)%nat ->
  exists chunks,
    iter_read size fuel bytes = Some chunks /\
    join_chunks chunks = bytes /\
    Forall (fun c => (0 < String.length c <= size)%nat) chunks.
Proof.
  intros Hsize. revert bytes.
  induction fuel as [|k IH]; intros bytes Hfuel; [lia|].
  cbn [iter_read].
  destruct (String.eqb (Str.take size bytes) "") eqn:Hchunk.
  - apply String.eqb_eq in Hchunk.
    destruct size as [|n]; [lia|]. apply take_empty in Hchunk as ->.
    exists []. repeat split. constructor.
  - apply String.eqb_neq in Hchunk.
    assert (Hlen : (0 < String.length (Str.take size bytes))%nat).
    { destruct (Str.take size bytes); [contradiction|cbn; lia]. }
    assert (Hbytes : (0 < String.length bytes)%nat).
    { destruct bytes; [|cbn; lia].
      destruct size; cbn in Hlen; lia. }
    destruct (IH (Str.drop size bytes)) as (chunks & -> & Hjoin & Hall).
    { rewrite length_drop. lia. }
    exists (Str.take size bytes :: chunks). split; [reflexivity|]. split.
    + cbn [join_chunks fold_right]. fold (join_chunks chunks).
      rewrite Hjoin. apply take_drop.
    + constructor; [|exact Hall]. split; [exact Hlen|apply length_take].
Qed.

(** X1: with more reads allowed than the file has bytes, the loop of
    [get_md5sum] ends, and its chunks are the bytes of the file cut in
    order: put together they are the file, no chunk is empty and none
    is longer than the size asked for. *)
Theorem iter_read_cuts_the_file size fuel bytes :
  (0 < size)%nat ->
  (String.length bytes < fuel)%nat ->
  exists chunks,
    iter_read size fuel bytes = Some chunks /\
    join_chunks chunks = bytes /\
    Forall (fun c => (0 < String.length c <= size)%nat) chunks.
Proof. apply iter_read_chunks. Qed.

Section Digest.

Variable hash : Type.
Variable md5_new : hash.
Variable update : hash -> string -> hash.
Variable hexdigest : hash -> string.

(** Feeding a hash object in pieces is feeding it the whole. *)
Hypothesis update_append :
  forall h a b, update (update h a) b = update h (a +:+ b).
Hypothesis update_empty : forall h, update h "" = h.

Lemma fold_update chunks h :
  fold_left update chunks h = update h (join_chunks chunks).
Proof.
  revert h. induction chunks as [|c chunks IH]; intros h.
  - cbn. symmetry. apply update_empty.
  - cbn [fold_left join_chunks fold_right]. fold (join_chunks chunks).
    rewrite IH. apply update_append.
Qed.

(** X2: the digest [get_md5sum] computes chunk by chunk is the digest
    of the whole file in one [update], whatever the length of the
    file. *)
Theorem get_md5sum_is_the_digest_of_the_file fuel bytes :
  (String.length bytes < fuel)%nat ->
  get_md5sum_of hash md5_new update hexdigest fuel bytes =
    Some (hexdigest (update md5_new bytes)).
Proof.
  intros Hfuel. unfold get_md5sum_of.
  destruct (iter_read_chunks 4096 fuel bytes (Nat.lt_0_succ _) Hfuel)
    as (chunks & -> & Hjoin & _).
  rewrite fold_update, Hjoin. reflexivity.
Qed.

End Digest.

Lemma iter_read_cuts_the_file_witness :
  iter_read 3 4 "abcdefgh" = Some ["abc"; "def"; "gh"] /\
  exists chunks,
    iter_read 3 9 "abcdefgh" = Some chunks /\
    join_chunks chunks = "abcdefgh" /\
    Forall (fun c => (0 < String.length c <= 3)%nat) chunks.
Proof.
  split; [reflexivity|].
  apply (iter_read_cuts_the_file 3 9 "abcdefgh"); cbn; lia.
Defined.

Lemma get_md5sum_is_the_digest_of_the_file_witness :
  get_md5sum_of string "" fed_bytes (fun h => h) 6 "hello" = Some "hello".
Proof.
  apply (get_md5sum_is_the_digest_of_the_file string "" fed_bytes (fun h => h)).
  - intros h a b. apply append_assoc.
  - intros h. apply append_empty_r.
  - cbn. lia.
Defined.

(** ** [rand_str] for every length *)

(** X3: [rand_str(length)] never raises; it returns [length]
    characters, each a lowercase letter or a digit, and takes [length]
    numbers from the generator, leaving the rest of the state as it
    is. *)
Theorem rand_str_draws length st :
  exists s,
    rand_str length st =
      (set_random_state (drop length (random_state st)) st, Ok s) /\
    String.length s = length /\
    all_lower_alnum s = true.
Proof.
  exists (rand_prefix length (random_state st)).
  split; [apply rand_str_runs|].
  split; [apply rand_prefix_length|apply rand_prefix_alphabet].
Qed.

(** ** The date pattern *)

(** X4: the search for the date pattern finds a date exactly in the
    names that hold eight digits, an underscore, six digits and a dot
    in a row; the date it returns is such a run of eight digits of the
    name. *)
Theorem datere_search_finds_the_pattern file :
  (is_Some (datere_search file) <-> holds_date_pattern file) /\
  (forall dt, datere_search file = Some dt ->
     exists before time after,
       file = before +:+ dt +:+ "_" +:+ time +:+ "." +:+ after /\
       digits_n 8 dt = true /\ digits_n 6 time = true).
Proof. apply datere_search_pattern. Qed.

(** ** Timestamps and colons *)

(** X5: the folder of a timestamp is made of the text before its first
    colon and the text between its first and second colon, as they
    are; with fewer than two colons in the timestamp the unpacking
    raises [ValueError]. *)
Theorem exif_folder_by_colons value :
  if (count_char ":" value <? 2)%nat
  then exif_folder value = Raise ValueError
  else exists y m rest,
         value = y +:+ ":" +:+ m +:+ ":" +:+ rest /\
         count_char ":" y = 0%nat /\ count_char ":" m = 0%nat /\
         exif_folder value = Ok (y +:+ "-" +:+ m).
Proof. apply exif_folder_colons. Qed.

(** X6: the image inference takes the primary timestamp when the
    dictionary has one, else the original one, and looks at the file
    name only when the dictionary has neither; an empty dictionary is a
    dictionary with neither. *)
Theorem image_tiers_in_order f :
  infer_image_dest_folder f =
    match read_exif f with
    | Raise e => Raise e
    | Ok d =>
        match d !! "Exif.Image.DateTime" with
        | Some primary => exif_folder primary
        | None =>
            match d !! "Exif.Photo.DateTimeOriginal" with
            | Some original => exif_folder original
            | None =>
                match datere_search (name f) with
                | Some dt => Ok (dt_folder dt)
                | None => Ok "unknown"
                end
            end
        end
    end.
Proof. apply infer_image_by_lookup. Qed.

(** X7: the image inference raises in two cases only, with the
    exception of the EXIF reader and with [ValueError] for a timestamp
    that does not split into three parts; in every other case it
    returns a folder. *)
Theorem image_inference_raises_iff f e :
  infer_image_dest_folder f = Raise e <-> exif_failure f = Some e.
Proof.
  split; [|apply exif_failure_raises].
  rewrite infer_image_by_lookup. unfold exif_failure, exif_timestamp.
  destruct (read_exif f) as [d|e']; [|intros [= ->]; reflexivity].
  assert (Hcase : forall v, exif_folder v = Raise e ->
            (if (length (Str.split ":" 2 v) =? 3)%nat then None else Some ValueError)
            = Some e).
  { intros v. unfold exif_folder.
    destruct (Str.split ":" 2 v) as [|y [|m [|r [|? ?]]]]; cbn [length Nat.eqb];
      intros [= <-]; reflexivity. }
  destruct (d !! "Exif.Image.DateTime") as [v1|] eqn:H1.
  - destruct (truthy_lookup _ _ _ H1) as [-> ->]. apply Hcase.
  - rewrite (contains_absent _ _ H1), andb_false_r.
    destruct (d !! "Exif.Photo.DateTimeOriginal") as [v2|] eqn:H2.
    + destruct (truthy_lookup _ _ _ H2) as [-> ->]. apply Hcase.
    + rewrite (contains_absent _ _ H2), andb_false_r.
      destruct (datere_search (name f)); discriminate.
Qed.

(** ** Extensions *)

Lemma lower_append a b : Str.lower (a +:+ b) = Str.lower a +:+ Str.lower b.
Proof.
  induction a as [|c a IH]; [reflexivity|].
  change (String c a +:+ b) with (String c (a +:+ b)).
  cbn [Str.lower]. rewrite IH. reflexivity.
Qed.

Lemma lower_drop n s : Str.lower (Str.drop n s) = Str.drop n (Str.lower s).
Proof.
  revert s. induction n as [|n IH]; intros s; [reflexivity|].
  destruct s as [|c s]; [reflexivity|]. cbn [Str.drop Str.lower]. apply IH.
Qed.

Lemma drop_append p r : Str.drop (String.length p) (p +:+ r) = r.
Proof.
  induction p as [|c p IH]; [reflexivity|].
  change (String c p +:+ r) with (String c (p +:+ r)).
  cbn [String.length Str.drop]. exact IH.
Qed.

Lemma endswith_spec s suffix :
  Str.endswith s suffix = true <-> exists p, s = p +:+ suffix.
Proof.
  unfold Str.endswith. split.
  - intros H. apply andb_true_iff in H as [_ H]. apply String.eqb_eq in H.
    exists (Str.take (String.length s - String.length suffix) s).
    rewrite <- (take_drop (String.length s - String.length suffix) s) at 1.
    f_equal. exact H.
  - intros [p ->]. rewrite length_append.
    replace (String.length p + String.length suffix - String.length suffix)%nat
      with (String.length p) by lia.
    rewrite drop_append, String.eqb_refl, andb_true_r.
    apply Nat.leb_le. lia.
Qed.

Lemma candidate_suffix file_type f :
  candidate file_type f = true <->
  exists stem ext,
    name f = stem +:+ ext /\ In (Str.lower ext) (ext_list file_type).
Proof.
  unfold candidate, Str.endswith_any. rewrite existsb_exists. split.
  - intros (e & Hin & Hend). apply endswith_spec in Hend as [p Hp].
    exists (Str.take (String.length p) (name f)),
           (Str.drop (String.length p) (name f)).
    split; [symmetry; apply take_drop|].
    rewrite lower_drop, Hp, drop_append. exact Hin.
  - intros (stem & ext & Hname & Hin).
    exists (Str.lower ext). split; [exact Hin|].
    apply endswith_spec. exists (Str.lower stem).
    rewrite Hname. apply lower_append.
Qed.

(** X8: a file is taken by the walk exactly when its name ends with one
    of the extensions of the kind in any mix of upper and lower case. *)
Theorem candidate_by_extension file_type f :
  candidate file_type f = true <->
  exists stem ext,
    name f = stem +:+ ext /\ In (Str.lower ext) (ext_list file_type).
Proof. apply candidate_suffix. Qed.

Lemma last_char_append p r : r <> "" -> last_char (p +:+ r) = last_char r.
Proof.
  intros Hr. induction p as [|c p IH]; [reflexivity|].
  change (String c p +:+ r) with (String c (p +:+ r)).
  cbn [last_char]. destruct (p +:+ r) eqn:Hpr; [|exact IH].
  destruct p; [|discriminate]. contradiction.
Qed.

Lemma endswith_last s suffix c :
  Str.endswith s suffix = true -> last_char suffix = Some c ->
  last_char s = Some c.
Proof.
  intros H Hc. apply endswith_spec in H as [p ->].
  rewrite last_char_append; [exact Hc|]. intros ->. discriminate.
Qed.

(** X9: no file is taken both by a walk for images and by a walk for
    any other kind: the image extensions end in [g] or [f], the video
    extensions in [s], [4] or [i]. *)
Theorem image_and_video_never_share_a_file file_type f :
  candidate "image" f = true ->
  file_type <> "image" ->
  candidate file_type f = false.
Proof.
  intros Himage Hne. apply String.eqb_neq in Hne.
  destruct (candidate file_type f) eqn:Hvideo; [exfalso|reflexivity].
  unfold candidate, Str.endswith_any, ext_list in Himage, Hvideo.
  rewrite Hne in Hvideo. rewrite String.eqb_refl in Himage.
  apply existsb_exists in Himage as (e1 & Hin1 & Hend1).
  apply existsb_exists in Hvideo as (e2 & Hin2 & Hend2).
  assert (H1 : last_char (Str.lower (name f)) = Some "g"%char \/
               last_char (Str.lower (name f)) = Some "f"%char).
  { unfold IMAGE_EXT in Hin1. cbn [In] in Hin1.
    destruct Hin1 as [<-|[<-|[<-|[<-|[]]]]];
      [left|left|left|right];
      (apply (endswith_last _ _ _ Hend1); reflexivity). }
  assert (H2 : last_char (Str.lower (name f)) = Some "s"%char \/
               last_char (Str.lower (name f)) = Some "4"%char \/
               last_char (Str.lower (name f)) = Some "i"%char).
  { unfold VIDEO_EXT in Hin2. cbn [In] in Hin2.
    destruct Hin2 as [<-|[<-|[<-|[]]]];
      [left|right; left|right; right];
      (apply (endswith_last _ _ _ Hend2); reflexivity). }
  destruct H1 as [H1|H1], H2 as [H2|[H2|H2]]; rewrite H1 in H2; discriminate.
Qed.

(** ** The walk, file by file *)

Section Walk.

Variable md5 : string -> string.
Variable fromtimestamp : Z -> result date.

Lemma walk_dir_files file_type root fs :
  map event_file (walk_dir fromtimestamp file_type (root, fs)) =
    map (pair root) (List.filter (candidate file_type) fs).
Proof.
  unfold walk_dir. cbn [fst snd].
  induction fs as [|f fs IH]; [reflexivity|].
  cbn [flat_map List.filter]. rewrite map_app, IH.
  unfold walk_file. destruct (candidate file_type f); [|reflexivity].
  destruct (infer_dest_folder fromtimestamp file_type f); reflexivity.
Qed.

Lemma walk_event_files directory file_type :
  map event_file (walk_src_dir fromtimestamp directory file_type) =
    candidates directory file_type.
Proof.
  unfold walk_src_dir, candidates.
  induction directory as [|[root fs] directory IH]; [reflexivity|].
  cbn [flat_map fst snd]. rewrite map_app, IH, walk_dir_files. reflexivity.
Qed.

(** X10: the walk has one event for every candidate of the tree, in
    the order of the tree, a triple for the loop or a record of the
    error; a file that is no candidate has none. *)
Theorem walk_visits_every_candidate directory file_type :
  map event_file (walk_src_dir fromtimestamp directory file_type) =
    candidates directory file_type.
Proof. apply walk_event_files. Qed.

Lemma filter_all {A} (p : A -> bool) l :
  (forall x, In x l -> p x = true) -> List.filter p l = l.
Proof.
  intros H. induction l as [|x l IH]; [reflexivity|].
  cbn [List.filter]. rewrite (H x) by (left; reflexivity).
  rewrite IH; [reflexivity|]. intros y Hy. apply H. right. exact Hy.
Qed.

(** X11: for a kind other than ["image"] the walk hands every candidate
    to the loop, and drops none with an error record, when each
    candidate has the date pattern in its name or a modification time
    that [os.stat] gives and [date.fromtimestamp] converts. *)
Theorem video_walk_yields_every_candidate directory file_type :
  file_type <> "image" ->
  (forall root f,
     In (root, f) (candidates directory file_type) ->
     holds_date_pattern (name f) \/
     exists mtime d, os_stat f = Ok mtime /\ fromtimestamp mtime = Ok d) ->
  yielded (walk_src_dir fromtimestamp directory file_type) =
    candidates directory file_type.
Proof.
  intros Hne Hall. apply String.eqb_neq in Hne.
  rewrite yielded_walk. apply filter_all. intros [root f] Hin.
  unfold inferred, infer_dest_folder, infer_video_dest_folder. rewrite Hne.
  cbn [snd].
  destruct (datere_search (name f)) as [dt|] eqn:Hs; [reflexivity|].
  destruct (Hall root f Hin) as [Hp|(mtime & d & -> & ->)]; [|reflexivity].
  apply datere_search_none in Hs. contradiction.
Qed.

Lemma walk_only_candidates directory file_type :
  walk_src_dir fromtimestamp (only_candidates file_type directory) file_type =
    walk_src_dir fromtimestamp directory file_type.
Proof.
  unfold walk_src_dir, only_candidates.
  induction directory as [|[root fs] directory IH]; [reflexivity|].
  cbn [map flat_map fst snd]. rewrite IH. f_equal.
  unfold walk_dir. cbn [fst snd]. clear IH.
  induction fs as [|f fs IHfs]; [reflexivity|].
  cbn [List.filter flat_map].
  destruct (candidate file_type f) eqn:Hc.
  - cbn [flat_map]. rewrite IHfs. reflexivity.
  - rewrite IHfs. unfold walk_file at 2. rewrite Hc. reflexivity.
Qed.

(** X12: the files whose extension is not of the selected kind have no
    part in a run: the run over a tree is the run over the tree
    without them. *)
Theorem other_files_are_ignored src dst0 type seed :
  main md5 fromtimestamp (only_candidates (default "image" type) src) dst0 type seed =
    main md5 fromtimestamp src dst0 type seed.
Proof.
  unfold main, main_from. rewrite walk_only_candidates. reflexivity.
Qed.

End Walk.

Lemma image_and_video_never_share_a_file_witness :
  candidate "image" (bare "Photo.JPG" "j") = true /\
  "video" <> "image" /\
  candidate "video" (bare "Photo.JPG" "j") = false.
Proof.
  assert (H1 : candidate "image" (bare "Photo.JPG" "j") = true) by reflexivity.
  assert (H2 : "video" <> "image") by discriminate.
  split; [exact H1|]. split; [exact H2|].
  exact (image_and_video_never_share_a_file "video" (bare "Photo.JPG" "j") H1 H2).
Defined.

Lemma video_walk_yields_every_candidate_witness :
  "video" <> "image" /\
  yielded (walk_src_dir utc movie_src "video") =
    [("a", clip "20230102_100000.MP4" (plain "two")); ("b", holiday_clip)].
Proof.
  assert (H : "video" <> "image") by discriminate.
  split; [exact H|].
  apply (video_walk_yields_every_candidate utc movie_src "video" H).
  intros root f Hin. right.
  destruct Hin as [Hin|[Hin|[]]]; injection Hin as <- <-;
    eexists _, _; split; reflexivity.
Defined.

(** ** A whole run *)

Section WholeRun.

Variable md5 : string -> string.
Variable fromtimestamp : Z -> result date.

(** What a placement takes from the generator: five numbers for a
    prefix, which only the branch of a name collision with other
    content draws. *)
Lemma main_body_draws srcdir f dstpart st st' r :
  main_body md5 srcdir f dstpart st = (st', r) ->
  match r with
  | Ok (CopiedWithSuffix _ _) => random_state st' = drop 5 (random_state st)
  | Ok _ => random_state st' = random_state st
  | Raise _ =>
      exists k, (k <= 1)%nat /\
                random_state st' = drop (5 * k) (random_state st)
  end.
Proof.
  intros H. apply main_body_outcome in H.
  destruct H as [Hp Hs Hn|st' e Hp Hf|present Hp Hr|present Hp Hs Hd He
                |present Hp Hs Hd He Hn|present st' e Hp Hs Hd He Hf];
    try (apply copy_fails_frame in Hf as (_ & _ & _ & Hrs & _));
    cbn [written answered set_dst set_cfiles set_random_state random_state] in *;
    try rewrite entered_random_state in *.
  - reflexivity.
  - exists 0%nat. split; [lia|exact Hrs].
  - exists 0%nat. split; [lia|reflexivity].
  - reflexivity.
  - reflexivity.
  - exists 1%nat. split; [lia|exact Hrs].
Qed.

(** What a run of the loop adds to the counters and takes from the
    generator, by the decisions it adds. *)
Lemma main_loop_counts evs st st' r :
  main_loop md5 evs st = (st', r) ->
  exists ds k,
    decisions st' = decisions st ++ ds /\
    nfiles st' = (nfiles st + length ds)%nat /\
    cfiles st' = (cfiles st + length (copied_paths ds))%nat /\
    random_state st' =
      drop (5 * (length (suffixed_paths ds) + k)) (random_state st) /\
    (k <= 1)%nat /\
    (existsb (fun d => is_Failed d.2) ds = false -> k = 0%nat).
Proof.
  revert st. induction evs as [|ev evs IH]; intros st H.
  - apply pair_equal_spec in H as [<- _]. exists [], 0%nat.
    rewrite app_nil_r. cbn. repeat split; lia.
  - destruct ev as [root f dstpart|root f e]; cbn [main_loop] in H.
    + destruct (main_body md5 root f dstpart st) as [st1 [d|e]] eqn:Hbody.
      * pose proof (main_body_decisions _ _ _ _ _ _ _ Hbody) as Hds.
        destruct (main_body_frame _ _ _ _ _ _ _ Hbody) as (_ & _ & Hn).
        pose proof (main_body_draws _ _ _ _ _ _ Hbody) as Hr.
        pose proof (main_body_not_Failed _ _ _ _ _ _ _ Hbody) as Hnf'.
        apply main_body_files in Hbody. cbv zeta in Hbody.
        apply IH in H as (ds & k & Hdec & Hnf & Hcf & Hrs & Hk & Hk0).
        cbn [add_decision decisions nfiles cfiles random_state] in *.
        exists ((root, f, d) :: ds), k.
        split; [rewrite Hdec, Hds, <- app_assoc; reflexivity|].
        split; [cbn [length]; lia|].
        assert (Hfailed : existsb (fun d0 => is_Failed d0.2) ((root, f, d) :: ds)
                          = false -> k = 0%nat).
        { cbn [existsb snd]. rewrite Hnf'. exact Hk0. }
        destruct d as [p|p s| |e];
          cbn [copied_paths suffixed_paths flat_map snd app length];
          fold (copied_paths ds); fold (suffixed_paths ds).
        -- destruct Hbody as (_ & _ & _ & Hc). split; [lia|].
           split; [congruence|auto].
        -- destruct Hbody as (_ & _ & Hc). split; [lia|].
           split; [|auto]. rewrite Hrs, Hr, drop_drop. f_equal. lia.
        -- destruct Hbody as (_ & _ & Hc). split; [lia|].
           split; [congruence|auto].
        -- destruct Hbody.
      * pose proof (main_body_decisions _ _ _ _ _ _ _ Hbody) as Hds.
        destruct (main_body_frame _ _ _ _ _ _ _ Hbody) as (_ & _ & Hn).
        destruct (main_body_draws _ _ _ _ _ _ Hbody) as (k & Hk & Hr).
        apply main_body_files in Hbody. cbv zeta in Hbody.
        destruct Hbody as [Hc _].
        apply pair_equal_spec in H as [<- _].
        cbn [add_decision decisions nfiles cfiles random_state].
        exists [(root, f, Failed e)], k. rewrite Hds.
        cbn. repeat split; [lia|lia|exact Hr|exact Hk|discriminate].
    + unfold mbind, M_bind, modify in H.
      apply (IH (add_log (CannotProcessImage root (name f) e) st)) in H.
      exact H.
Qed.

(** X13: the summary reports, as files found, the number of files the
    loop started on, the failing one included, and, as files copied, the
    number of them that were copied under their own name; the two
    records close the log of every run. *)
Theorem summary_counts_the_decisions src dst0 type seed :
  let final := main md5 fromtimestamp src dst0 type seed in
  nfiles final = length (decisions final) /\
  cfiles final = length (copied_paths (decisions final)) /\
  (cfiles final <= nfiles final)%nat /\
  exists earlier,
    log final = earlier ++ [FilesFound (length (decisions final));
                            FilesCopied (length (copied_paths (decisions final)))].
Proof.
  destruct (main_final md5 fromtimestamp src dst0 type seed)
    as (st & r & Hloop & _ & Hd & Hn & Hc & _ & Hlog).
  cbv zeta. rewrite Hd, Hn, Hc, Hlog.
  apply main_loop_counts in Hloop as (ds & k & Hds & Hnf & Hcf & _).
  cbn [initial decisions nfiles cfiles app] in Hds, Hnf, Hcf.
  rewrite Hds, Hnf, Hcf. cbn [Nat.add].
  split; [reflexivity|]. split; [reflexivity|]. split.
  - unfold copied_paths. clear. induction ds as [|[[? ?] [?|? ?| |?]] ds IH];
      cbn [flat_map snd app length]; lia.
  - eexists. rewrite app_assoc. reflexivity.
Qed.

(** X14: [rand_str] is called, for its five choices, once for each
    copy under a prefixed name and at most once more, in the placement
    that failed; in a run without a [Failed] decision the generator
    has moved on by the prefixes of the copies under a prefixed name
    and by nothing else. *)
Theorem generator_is_used_for_prefixes_only src dst0 type seed :
  let final := main md5 fromtimestamp src dst0 type seed in
  exists failed,
    random_state final =
      drop (5 * (length (suffixed_paths (decisions final)) + failed)) seed /\
    (failed <= 1)%nat /\
    (existsb (fun d => is_Failed d.2) (decisions final) = false ->
     failed = 0%nat).
Proof.
  destruct (main_final md5 fromtimestamp src dst0 type seed)
    as (st & r & Hloop & _ & Hd & _ & _ & Hr & _).
  cbv zeta. rewrite Hd, Hr.
  apply main_loop_counts in Hloop as (ds & k & Hds & _ & _ & Hrs & Hk & Hk0).
  cbn [initial decisions random_state app] in Hds, Hrs.
  rewrite Hds. exists k. auto.
Qed.



(** The copies of a run of the loop under the files' own names go to
    paths that were free, each to another one. *)
Lemma main_loop_copies_to_free_paths evs st st' r :
  main_loop md5 evs st = (st', r) ->
  exists ds,
    decisions st' = decisions st ++ ds /\
    NoDup (copied_paths ds) /\
    forall p, In p (copied_paths ds) ->
      files (dst st) !! p = None /\ is_Some (files (dst st') !! p).
Proof.
  revert st. induction evs as [|ev evs IH]; intros st H.
  - apply pair_equal_spec in H as [<- _]. exists []. rewrite app_nil_r.
    split; [reflexivity|]. split; [constructor|]. intros p [].
  - destruct ev as [root f dstpart|root f e]; cbn [main_loop] in H.
    + destruct (main_body md5 root f dstpart st) as [st1 [d|e]] eqn:Hbody.
      * pose proof (main_body_decisions _ _ _ _ _ _ _ Hbody) as Hds.
        assert (Hfree : forall p, files (dst st1) !! p = None ->
                          files (dst st) !! p = None).
        { intros p Hp. destruct (files (dst st) !! p) eqn:Hold; [|reflexivity].
          assert (Hs : is_Some (files (dst st) !! p)) by eauto.
          eapply main_body_keeps in Hs; [|exact Hbody].
          rewrite Hp in Hs. destruct Hs. discriminate. }
        assert (Hpath : forall p, d = Copied p -> p = (dstpart, name f)).
        { intros p ->. eapply main_body_Copied_path, Hbody. }
        apply main_body_files in Hbody. cbv zeta in Hbody.
        pose proof H as Hrest.
        apply IH in H as (ds & Hdec & Hnd & Hall).
        cbn [add_decision decisions dst] in Hdec, Hall.
        exists ((root, f, d) :: ds).
        split; [rewrite Hdec, Hds, <- app_assoc; reflexivity|].
        destruct d as [p|p s| |e];
          cbn [copied_paths flat_map snd app]; fold (copied_paths ds);
          try (split; [exact Hnd|];
               intros p' Hp'; destruct (Hall p' Hp') as [Hn Hs]; auto).
        rewrite (Hpath p eq_refl) in *.
        destruct Hbody as (Hnone & _ & Hfiles & _). split.
        -- constructor; [|exact Hnd]. intros Hin. apply list_elem_of_In in Hin.
           destruct (Hall _ Hin) as [Hn _].
           rewrite Hfiles, lookup_insert_eq in Hn. discriminate.
        -- intros p' [<-|Hp'].
           ++ split; [exact Hnone|].
              eapply main_loop_keeps; [exact Hrest|].
              cbn [add_decision dst]. rewrite Hfiles, lookup_insert_eq. eauto.
           ++ destruct (Hall p' Hp') as [Hn Hs]. auto.
      * pose proof (main_body_decisions _ _ _ _ _ _ _ Hbody) as Hds.
        apply pair_equal_spec in H as [<- _].
        cbn [add_decision decisions]. exists [(root, f, Failed e)].
        rewrite Hds. split; [reflexivity|]. split; [constructor|]. intros p [].
    + unfold mbind, M_bind, modify in H.
      apply (IH (add_log (CannotProcessImage root (name f) e) st)) in H.
      exact H.
Qed.

(** X16: a copy under the file's own name only goes to a path that was
    free when the run began, no two files of a run are copied to the
    same path, and the path is taken when the run ends. *)
Theorem plain_copies_go_to_free_paths src dst0 type seed :
  let final := main md5 fromtimestamp src dst0 type seed in
  NoDup (copied_paths (decisions final)) /\
  forall p, In p (copied_paths (decisions final)) ->
    files dst0 !! p = None /\ is_Some (files (dst final) !! p).
Proof.
  destruct (main_final md5 fromtimestamp src dst0 type seed)
    as (st & r & Hloop & Hdst & Hd & _).
  cbv zeta. rewrite Hdst, Hd.
  apply main_loop_copies_to_free_paths in Hloop as (ds & Hds & Hnd & Hall).
  cbn [initial decisions dst app] in Hds, Hall. rewrite Hds. auto.
Qed.

End WholeRun.

(** ** Buckets exist before files are written to them *)

Lemma housed_step (d d' : dest) :
  housed d ->
  dirs d ⊆ dirs d' ->
  (files d' = files d \/
   exists dstpart file x,
     dstpart ∈ dirs d' /\ files d' = <[(dstpart, file) := x]> (files d)) ->
  housed d'.
Proof.
  unfold housed. intros Hd Hsub [Heq|(dp & n & x & Hin & Heq)]; rewrite Heq.
  - eapply map_Forall_impl; [exact Hd|]. intros p y Hp. cbn in *. set_solver.
  - apply map_Forall_insert_2; [exact Hin|].
    eapply map_Forall_impl; [exact Hd|]. intros p y Hp. cbn in *. set_solver.
Qed.

Lemma entered_dirs dstpart st :
  memo_in_dirs st ->
  dstpart ∈ dirs (dst (entered dstpart st)) /\
  dirs (dst st) ⊆ dirs (dst (entered dstpart st)) /\
  memo_in_dirs (entered dstpart st).
Proof.
  unfold memo_in_dirs, entered. intros Hmemo.
  destruct (bool_decide (is_Some (createdSubdirs st !! dstpart))) eqn:Hb.
  - apply bool_decide_eq_true_1 in Hb.
    cbn [set_nfiles dst createdSubdirs]. auto.
  - cbn [set_nfiles set_dst set_createdSubdirs dst createdSubdirs dirs].
    split; [set_solver|]. split; [set_solver|].
    intros k Hk. apply lookup_insert_is_Some in Hk as [<-|[_ Hk]]; [set_solver|].
    apply Hmemo in Hk. set_solver.
Qed.

Lemma housed_after (s s' : state) dstpart file :
  memo_in_dirs s -> housed (dst s) -> dstpart ∈ dirs (dst s) ->
  createdSubdirs s' = createdSubdirs s ->
  dirs (dst s') = dirs (dst s) ->
  (files (dst s') = files (dst s) \/
   exists x, files (dst s') = <[(dstpart, file) := x]> (files (dst s))) ->
  memo_in_dirs s' /\ housed (dst s').
Proof.
  intros Hmemo Hhoused Hin Hcs Hd Hf. split.
  - unfold memo_in_dirs. rewrite Hcs, Hd. exact Hmemo.
  - eapply housed_step; [exact Hhoused|rewrite Hd; reflexivity|].
    destruct Hf as [Hf|[x Hf]]; [left; exact Hf|right].
    exists dstpart, file, x. rewrite Hd. auto.
Qed.

Section Buckets_exist.

Variable md5 : string -> string.
Variable fromtimestamp : Z -> result date.

Lemma main_body_housed srcdir f dstpart st st' r :
  memo_in_dirs st -> housed (dst st) ->
  main_body md5 srcdir f dstpart st = (st', r) ->
  memo_in_dirs st' /\ housed (dst st').
Proof.
  intros Hmemo Hhoused H. apply main_body_outcome in H.
  destruct (entered_dirs dstpart st Hmemo) as (Hin & Hsub & Hmemo1).
  pose proof (entered_files dstpart st) as Hfiles.
  assert (Hsame : housed (dst (entered dstpart st))).
  { eapply housed_step; [exact Hhoused|exact Hsub|]. left. exact Hfiles. }
  destruct H as [Hp Hs Hn|st' e Hp Hf|present Hp Hr|present Hp Hs Hd He
                |present Hp Hs Hd He Hn|present st' e Hp Hs Hd He Hf].
  - apply (housed_after (entered dstpart st) _ dstpart (name f));
      try assumption; try reflexivity.
    right. eexists. reflexivity.
  - apply copy_fails_frame in Hf as (Hcs & _ & _ & _ & _ & _ & Hdirs & Hf).
    apply (housed_after (entered dstpart st) _ dstpart (name f));
      assumption.
  - auto.
  - auto.
  - apply (housed_after (entered dstpart st) _ dstpart
             (rand_prefix 5 (random_state st) +:+ "-" +:+ name f));
      try assumption; try reflexivity.
    right. eexists. reflexivity.
  - apply copy_fails_frame in Hf as (Hcs & _ & _ & _ & _ & _ & Hdirs & Hf).
    apply (housed_after (entered dstpart st) _ dstpart
             (rand_prefix 5 (random_state st) +:+ "-" +:+ name f));
      assumption.
Qed.

Lemma main_loop_housed evs st st' r :
  memo_in_dirs st -> housed (dst st) ->
  main_loop md5 evs st = (st', r) ->
  memo_in_dirs st' /\ housed (dst st').
Proof.
  revert st. induction evs as [|ev evs IH]; intros st Hmemo Hhoused H.
  - apply pair_equal_spec in H as [<- _]. auto.
  - destruct ev as [root f dstpart|root f e]; cbn [main_loop] in H.
    + destruct (main_body md5 root f dstpart st) as [st1 [d|e]] eqn:Hbody;
        destruct (main_body_housed _ _ _ _ _ _ Hmemo Hhoused Hbody) as [Hm1 Hh1].
      * apply IH in H; [exact H|exact Hm1|exact Hh1].
      * apply pair_equal_spec in H as [<- _]. auto.
    + unfold mbind, M_bind, modify in H.
      apply (IH (add_log (CannotProcessImage root (name f) e) st)) in H;
        [exact H|exact Hmemo|exact Hhoused].
Qed.

(** X17: when every file of the destination lies in a sub-directory
    that exists, this is so after the run too: the loop makes sure of
    the bucket, through [createdSubdirs] or [mkdir], before it copies a
    file into it. *)
Theorem files_stay_housed src dst0 type seed :
  housed dst0 ->
  housed (dst (main md5 fromtimestamp src dst0 type seed)).
Proof.
  intros Hhoused.
  destruct (main_final md5 fromtimestamp src dst0 type seed)
    as (st & r & Hloop & Hdst & _).
  cbv zeta in Hdst. rewrite Hdst.
  eapply main_loop_housed; [| |exact Hloop].
  - intros k [x Hk]. cbn [initial createdSubdirs] in Hk.
    rewrite lookup_empty in Hk. discriminate.
  - exact Hhoused.
Qed.

(** X18: after a run whose decisions are all [Copied] or
    [SkippedIdentical], every file the walk handed over has at its
    destination path a readable file with the digest of the source
    file. *)
Theorem plain_run_leaves_every_file_in_place src dst0 type seed :
  let final := main md5 fromtimestamp src dst0 type seed in
  forallb (fun d => is_plain (snd d)) (decisions final) = true ->
  Forall (settled md5 (files (dst final)))
    (walk_src_dir fromtimestamp src (default "image" type)).
Proof.
  destruct (main_final md5 fromtimestamp src dst0 type seed)
    as (st & r & Hloop & Hdst & Hd & _).
  cbv zeta in *. rewrite Hdst, Hd. intros Hplain.
  destruct (main_loop_settles md5 _ _ _ _ [] Hloop Hplain ltac:(constructor))
    as [Hset _].
  exact Hset.
Qed.

End Buckets_exist.


Lemma files_stay_housed_witness :
  housed one_file_dest /\
  housed (dst (main bytes_digest utc twin_src one_file_dest None [])).
Proof.
  assert (H : housed one_file_dest).
  { unfold housed, one_file_dest. cbn [files dirs].
    apply map_Forall_singleton. cbn. set_solver. }
  split; [exact H|].
  exact (files_stay_housed bytes_digest utc twin_src one_file_dest None [] H).
Defined.

Lemma plain_run_leaves_every_file_in_place_witness :
  let final := main bytes_digest utc scenario_src empty_dest None [] in
  forallb (fun d => is_plain (snd d)) (decisions final) = true /\
  Forall (settled bytes_digest (files (dst final)))
    (walk_src_dir utc scenario_src "image").
Proof.
  assert (H : forallb (fun d => is_plain (snd d))
                (decisions (main bytes_digest utc scenario_src empty_dest None []))
              = true) by (vm_compute; reflexivity).
  split; [exact H|].
  exact (plain_run_leaves_every_file_in_place bytes_digest utc scenario_src
           empty_dest None [] H).
Defined.

(** ** Every candidate is accounted for *)

Section Accounting.

Variable md5 : string -> string.
Variable fromtimestamp : Z -> result date.




End Accounting.


(** ** [createdSubdirs] is a cache *)

Lemma forget_entered dstpart st :
  memo_in_dirs st ->
  forget_memo (entered dstpart st) = forget_memo (entered dstpart (forget_memo st)).
Proof.
  intros Hmemo. unfold entered at 2.
  cbn [forget_memo set_createdSubdirs createdSubdirs].
  rewrite lookup_empty, bool_decide_eq_false_2 by (intros [? ?]; discriminate).
  unfold entered.
  destruct (bool_decide (is_Some (createdSubdirs st !! dstpart))) eqn:Hb.
  - apply bool_decide_eq_true_1, Hmemo in Hb.
    assert (Hd : {[dstpart]} ∪ dirs (dst st) = dirs (dst st))
      by (apply subseteq_union_1_L, singleton_subseteq_l, Hb).
    destruct st as [[fs ds os] cs nf cf rs lg dc]. cbn in Hd |- *.
    rewrite Hd. reflexivity.
  - destruct st. reflexivity.
Qed.

Section Cache.

Variable md5 : string -> string.

Lemma main_body_memo srcdir f dstpart st st' r :
  memo_in_dirs st ->
  main_body md5 srcdir f dstpart st = (st', r) ->
  memo_in_dirs st'.
Proof.
  intros Hmemo H. apply main_body_outcome in H.
  destruct (entered_dirs dstpart st Hmemo) as (_ & _ & Hmemo1).
  destruct H as [Hp Hs Hn|st' e Hp Hf|present Hp Hr|present Hp Hs Hd He
                |present Hp Hs Hd He Hn|present st' e Hp Hs Hd He Hf];
    try exact Hmemo1;
    apply copy_fails_frame in Hf as (Hcs & _ & _ & _ & _ & _ & Hdirs & _);
    unfold memo_in_dirs; rewrite Hcs, Hdirs; exact Hmemo1.
Qed.

(** [shutil.copy2] does not look at the memo. *)
Lemma copy2_forget src to s1 s2 :
  forget_memo s1 = forget_memo s2 ->
  snd (copy2 src to s1) = snd (copy2 src to s2) /\
  forget_memo (fst (copy2 src to s1)) = forget_memo (fst (copy2 src to s2)).
Proof.
  intros H. pose proof (f_equal dst H) as Hd. cbn in Hd.
  unfold copy2. rewrite Hd.
  destruct (readable src); [|auto].
  destruct (hd CopyDone (copy_outcomes (dst s2))); cbn [fst snd]; split;
    try reflexivity;
    match goal with
    | |- forget_memo (set_dst ?d s1) = forget_memo (set_dst ?d s2) =>
        change (set_dst d (forget_memo s1) = set_dst d (forget_memo s2));
        rewrite H; reflexivity
    end.
Qed.

(** The body on a state and on the state with the memo forgotten. *)
Lemma main_body_forget srcdir f dstpart st :
  memo_in_dirs st ->
  (forget_memo (fst (main_body md5 srcdir f dstpart st)),
   snd (main_body md5 srcdir f dstpart st)) =
  (forget_memo (fst (main_body md5 srcdir f dstpart (forget_memo st))),
   snd (main_body md5 srcdir f dstpart (forget_memo st))).
Proof.
  intros Hmemo. rewrite !main_body_cases. cbv zeta.
  pose proof (forget_entered dstpart st Hmemo) as He.
  change (files (dst (forget_memo st))) with (files (dst st)).
  change (random_state (forget_memo st)) with (random_state st).
  destruct (files (dst st) !! (dstpart, name f)) as [present|].
  - destruct (readable (on_disk f) && readable present);
      [destruct (String.eqb _ _)|]; cbn [fst snd]; try (f_equal; exact He).
    set (rs := drop 5 (random_state st)).
    set (q := (dstpart, rand_prefix 5 (random_state st) +:+ "-" +:+ name f)).
    assert (He' : forget_memo (set_random_state rs (entered dstpart st)) =
                  forget_memo (set_random_state rs
                                 (entered dstpart (forget_memo st)))).
    { change (set_random_state rs (forget_memo (entered dstpart st)) =
              set_random_state rs
                (forget_memo (entered dstpart (forget_memo st)))).
      rewrite He. reflexivity. }
    destruct (copy2_forget (on_disk f) q _ _ He') as [Hr Hs].
    destruct (copy2 (on_disk f) q (set_random_state rs (entered dstpart st)))
      as [a [[]|e]];
      destruct (copy2 (on_disk f) q
                  (set_random_state rs (entered dstpart (forget_memo st))))
        as [b [[]|e']];
      cbn [fst snd] in Hr, Hs |- *; try discriminate Hr.
    + rewrite Hs. reflexivity.
    + injection Hr as ->. rewrite Hs. reflexivity.
  - destruct (copy2_forget (on_disk f) (dstpart, name f) _ _ He) as [Hr Hs].
    destruct (copy2 (on_disk f) (dstpart, name f) (entered dstpart st))
      as [a [[]|e]];
      destruct (copy2 (on_disk f) (dstpart, name f)
                  (entered dstpart (forget_memo st)))
        as [b [[]|e']];
      cbn [fst snd] in Hr, Hs |- *; try discriminate Hr.
    + change (forget_memo (set_cfiles ?n ?s))
        with (set_cfiles n (forget_memo s)).
      change (cfiles a) with (cfiles (forget_memo a)).
      change (cfiles b) with (cfiles (forget_memo b)).
      rewrite Hs. reflexivity.
    + injection Hr as ->. rewrite Hs. reflexivity.
Qed.

Lemma main_body_related srcdir f dstpart st1 st2 a b r1 r2 :
  memo_in_dirs st1 -> memo_in_dirs st2 ->
  forget_memo st1 = forget_memo st2 ->
  main_body md5 srcdir f dstpart st1 = (a, r1) ->
  main_body md5 srcdir f dstpart st2 = (b, r2) ->
  r1 = r2 /\ forget_memo a = forget_memo b.
Proof.
  intros H1 H2 Heq Ha Hb.
  pose proof (main_body_forget srcdir f dstpart st1 H1) as E1.
  pose proof (main_body_forget srcdir f dstpart st2 H2) as E2.
  rewrite Ha in E1. rewrite Hb in E2. rewrite Heq in E1. rewrite <- E2 in E1.
  cbn [fst snd] in E1. apply pair_equal_spec in E1 as [E Er]. auto.
Qed.

Lemma main_loop_related evs st1 st2 a b r1 r2 :
  memo_in_dirs st1 -> memo_in_dirs st2 ->
  forget_memo st1 = forget_memo st2 ->
  main_loop md5 evs st1 = (a, r1) ->
  main_loop md5 evs st2 = (b, r2) ->
  r1 = r2 /\ forget_memo a = forget_memo b.
Proof.
  revert st1 st2. induction evs as [|ev evs IH]; intros st1 st2 H1 H2 Heq Ha Hb.
  - apply pair_equal_spec in Ha as [<- <-], Hb as [<- <-]. auto.
  - destruct ev as [root f dstpart|root f e]; cbn [main_loop] in Ha, Hb.
    + destruct (main_body md5 root f dstpart st1) as [s1 q1] eqn:B1.
      destruct (main_body md5 root f dstpart st2) as [s2 q2] eqn:B2.
      destruct (main_body_related _ _ _ _ _ _ _ _ _ H1 H2 Heq B1 B2) as [<- Hs].
      pose proof (main_body_memo _ _ _ _ _ _ H1 B1) as M1.
      pose proof (main_body_memo _ _ _ _ _ _ H2 B2) as M2.
      destruct q1 as [d|e].
      * eapply (IH (add_decision root f d s1) (add_decision root f d s2));
          [exact M1|exact M2| |exact Ha|exact Hb].
        change (add_decision root f d (forget_memo s1) =
                add_decision root f d (forget_memo s2)).
        rewrite Hs. reflexivity.
      * apply pair_equal_spec in Ha as [<- <-], Hb as [<- <-].
        split; [reflexivity|].
        change (add_decision root f (Failed e) (forget_memo s1) =
                add_decision root f (Failed e) (forget_memo s2)).
        rewrite Hs. reflexivity.
    + unfold mbind, M_bind, modify in Ha, Hb.
      eapply (IH (add_log (CannotProcessImage root (name f) e) st1)
                 (add_log (CannotProcessImage root (name f) e) st2));
        [exact H1|exact H2| |exact Ha|exact Hb].
      change (add_log (CannotProcessImage root (name f) e) (forget_memo st1) =
              add_log (CannotProcessImage root (name f) e) (forget_memo st2)).
      rewrite Heq. reflexivity.
Qed.

(** X20: [createdSubdirs] only saves calls of [mkdir].  From a state
    whose remembered buckets exist, the loop ends with the same
    destination, decisions, counters, log and generator state, and with
    the same exception if it raises, as from that state with nothing
    remembered. *)
Theorem memo_does_not_change_the_run evs st a b r1 r2 :
  memo_in_dirs st ->
  main_loop md5 evs st = (a, r1) ->
  main_loop md5 evs (forget_memo st) = (b, r2) ->
  r1 = r2 /\ dst a = dst b /\ decisions a = decisions b /\
  nfiles a = nfiles b /\ cfiles a = cfiles b /\
  log a = log b /\ random_state a = random_state b.
Proof.
  intros Hmemo Ha Hb.
  assert (Hforget : memo_in_dirs (forget_memo st)).
  { intros k [x Hk]. cbn in Hk. rewrite lookup_empty in Hk. discriminate. }
  destruct (main_loop_related evs st (forget_memo st) a b r1 r2 Hmemo Hforget
              eq_refl Ha Hb) as [Hr Hs].
  split; [exact Hr|].
  repeat split.
  - exact (f_equal dst Hs).
  - exact (f_equal decisions Hs).
  - exact (f_equal nfiles Hs).
  - exact (f_equal cfiles Hs).
  - exact (f_equal log Hs).
  - exact (f_equal random_state Hs).
Qed.

End Cache.

Lemma memo_does_not_change_the_run_witness :
  let st := set_createdSubdirs {[ "unknown" := true ]} (initial one_file_dest []) in
  let evs := walk_src_dir utc twin_src "image" in
  memo_in_dirs st /\
  dst (fst (main_loop bytes_digest evs st)) =
    dst (fst (main_loop bytes_digest evs (forget_memo st))).
Proof.
  intros st evs.
  assert (Hmemo : memo_in_dirs st).
  { intros k Hk. subst st. cbn in Hk |- *.
    apply lookup_singleton_is_Some in Hk as <-. set_solver. }
  split; [exact Hmemo|].
  destruct (memo_does_not_change_the_run bytes_digest evs st
              (fst (main_loop bytes_digest evs st))
              (fst (main_loop bytes_digest evs (forget_memo st)))
              (snd (main_loop bytes_digest evs st))
              (snd (main_loop bytes_digest evs (forget_memo st)))
              Hmemo (surjective_pairing _) (surjective_pairing _))
    as (_ & Hdst & _).
  exact Hdst.
Defined.

